(** * week-2/02-nodejs/todoServer.js: a todo list served over HTTP

    A shallow embedding of the Express application of [todoServer.js]
    and of the parts of its runtime that the handlers rely on:

    - JavaScript values as they occur in request bodies and in the
      backing file [todos.json];
    - [JSON.stringify] and [JSON.parse];
    - [fs.readFileSync], [fs.writeFileSync], [console.log], [uuid.v4];
    - the Express 4 router (method and path matching, the default
      error handler).

    Handlers are written in a small state-and-exception monad over the
    state of the world (the file, the console, the source of
    identifiers), one definition per function of the source.

    Limits of the model: numbers are integers (no fraction, no
    exponent, no negative zero); strings are sequences of 8-bit
    characters, and the parser rejects a [\uXXXX] escape above [007f];
    the properties of an object are enumerated in insertion order, also
    those whose names look like array indices; [req.path] is taken
    percent-decoded and [req.body] as [express.json()] leaves it (a
    JSON value, the empty object for a request without body). *)

From Stdlib Require Import List String Ascii ZArith Lia Bool.
From Stdlib Require Import DecimalString DecimalPos DecimalZ.
Import ListNotations.
Local Open Scope list_scope.
Local Open Scope string_scope.

(* ================================================================= *)
(** * JavaScript values *)

Module JS.

#[local] Set Warnings "-register-all".

Inductive value : Type :=
| Undefined
| Null
| Bool (b : bool)
| Num (n : Z)
| Str (s : string)
| Arr (elems : list value)
| Obj (fields : list (string * value)).

(** What [throw] carries in this program. *)
Inductive error : Type :=
| ENOENT        (* readFileSync: no such file *)
| EACCES        (* readFileSync / writeFileSync: permission denied *)
| SyntaxError   (* JSON.parse *)
| TypeError.    (* property of undefined/null, call of a non-function *)

Inductive result (A : Type) : Type :=
| Ok (a : A)
| Throw (e : error).
Arguments Ok {A} a.
Arguments Throw {A} e.

(** [ToBoolean]. *)
Definition truthy (v : value) : bool :=
  match v with
  | Undefined | Null => false
  | Bool b => b
  | Num n => negb (n =? 0)%Z
  | Str s => negb (s =? "")
  | Arr _ | Obj _ => true
  end.

(** [a || b]. *)
Definition or_else (a b : value) : value := if truthy a then a else b.

(** [v === s] for a string [s]. *)
Definition strict_eq_str (v : value) (s : string) : bool :=
  match v with
  | Str s' => s' =? s
  | _ => false
  end.

(** ** Own properties of an object, in insertion order *)

Fixpoint lookup (k : string) (fs : list (string * value)) : option value :=
  match fs with
  | [] => None
  | (k', v) :: r => if k' =? k then Some v else lookup k r
  end.

(** [o[k] = v]: an existing property keeps its place. *)
Fixpoint assign (k : string) (v : value) (fs : list (string * value))
  : list (string * value) :=
  match fs with
  | [] => [(k, v)]
  | (k', v') :: r => if k' =? k then (k', v) :: r else (k', v') :: assign k v r
  end.

Definition keys (fs : list (string * value)) : list string := map fst fs.

(** [v.k] where [k] is none of the inherited or built-in properties
    (the program reads [id], [title], [description] and [completed]):
    a primitive or an array has no such property; reading a property of
    [undefined] or [null] throws. *)
Definition get_prop (v : value) (k : string) : result value :=
  match v with
  | Undefined | Null => Throw TypeError
  | Obj fs => Ok (match lookup k fs with Some x => x | None => Undefined end)
  | _ => Ok Undefined
  end.

(** The same read where it cannot throw. *)
Definition field (v : value) (k : string) : value :=
  match get_prop v k with
  | Ok x => x
  | Throw _ => Undefined
  end.

(** [o.k = x] on an object [o]. *)
Definition set_prop (o : value) (k : string) (x : value) : value :=
  match o with
  | Obj fs => Obj (assign k x fs)
  | _ => o
  end.

(** The properties that [JSON.stringify] writes: one whose value is
    [undefined] is left out. *)
Definition members {B : Type} (f : string -> value -> B)
  : list (string * value) -> list B :=
  fix go fs :=
    match fs with
    | [] => []
    | (k, v) :: r =>
        match v with
        | Undefined => go r
        | _ => f k v :: go r
        end
    end.

Fixpoint distinct (l : list string) : bool :=
  match l with
  | [] => true
  | x :: r => (negb (existsb (String.eqb x) r) && distinct r)%bool
  end.

(** No object has two properties of one name. *)
Fixpoint wf (v : value) : bool :=
  match v with
  | Arr l => forallb wf l
  | Obj fs => (distinct (keys fs) && forallb (fun kv => wf (snd kv)) fs)%bool
  | _ => true
  end.

(** The values of JSON: those that [JSON.parse] returns. *)
Fixpoint is_json (v : value) : bool :=
  match v with
  | Undefined => false
  | Arr l => forallb is_json l
  | Obj fs =>
      (distinct (keys fs) && forallb (fun kv => is_json (snd kv)) fs)%bool
  | _ => true
  end.

(** What is left of a value once written as JSON: [undefined] becomes
    [null] in an array and is left out of an object. *)
Fixpoint strip (v : value) : value :=
  match v with
  | Undefined => Null
  | Arr l => Arr (map strip l)
  | Obj fs => Obj (members (fun k x => (k, strip x)) fs)
  | _ => v
  end.

End JS.
Export JS.

(* ================================================================= *)
(** * Strings *)

Module Text.

Fixpoint join (sep : string) (l : list string) : string :=
  match l with
  | [] => ""
  | [x] => x
  | x :: r => x ++ sep ++ join sep r
  end.

(** [strip_prefix p s] removes [p] from the front of [s]. *)
Fixpoint strip_prefix (p s : string) : option string :=
  match p with
  | "" => Some s
  | String a p' =>
      match s with
      | "" => None
      | String b s' => if (a =? b)%char then strip_prefix p' s' else None
      end
  end.

(** The double quote. *)
Definition dquote : ascii := "034"%char.

(** A text in which each single quote stands for a double quote. *)
Fixpoint dq (s : string) : string :=
  match s with
  | "" => ""
  | String c r => String (if (c =? "'")%char then dquote else c) (dq r)
  end.

Definition is_ws (c : ascii) : bool :=
  ((c =? " ")%char || (c =? "009")%char || (c =? "010")%char
   || (c =? "013")%char)%bool.

Fixpoint skip_ws (s : string) : string :=
  match s with
  | "" => ""
  | String c r => if is_ws c then skip_ws r else s
  end.

Definition is_control (c : ascii) : bool := (nat_of_ascii c <? 32)%nat.

Definition is_digit (c : ascii) : bool :=
  ((48 <=? nat_of_ascii c)%nat && (nat_of_ascii c <=? 57)%nat)%bool.

(** Characters of an integer literal. *)
Definition is_numchar (c : ascii) : bool := ((c =? "-")%char || is_digit c)%bool.

(** The longest prefix of number characters, and what follows it. *)
Fixpoint lex_num (s : string) : string * string :=
  match s with
  | "" => ("", "")
  | String c r =>
      if is_numchar c then let (t, r') := lex_num r in (String c t, r')
      else ("", s)
  end.

Definition hex_digit (n : nat) : ascii :=
  if (n <? 10)%nat then ascii_of_nat (48 + n) else ascii_of_nat (87 + n).

Definition hex_val (c : ascii) : option nat :=
  let n := nat_of_ascii c in
  if ((48 <=? n) && (n <=? 57))%nat%bool then Some (n - 48)%nat
  else if ((97 <=? n) && (n <=? 102))%nat%bool then Some (n - 87)%nat
  else if ((65 <=? n) && (n <=? 70))%nat%bool then Some (n - 55)%nat
  else None.

Fixpoint lower (s : string) : string :=
  match s with
  | "" => ""
  | String c r =>
      let n := nat_of_ascii c in
      String (if ((65 <=? n) && (n <=? 90))%nat%bool then ascii_of_nat (n + 32) else c)
             (lower r)
  end.

(** [s.split(sep)]. *)
Fixpoint split (sep : ascii) (s : string) : list string :=
  match s with
  | "" => [""]
  | String c r =>
      if (c =? sep)%char then "" :: split sep r
      else match split sep r with
           | [] => [String c ""]
           | x :: l => String c x :: l
           end
  end.

End Text.
Export Text.

(* ================================================================= *)
(** * JSON.stringify and JSON.parse *)

Module JSON.

(** ** JSON.stringify *)

(** [QuoteJSONString]: the two-character escapes, [\u00xx] for the
    other control characters. *)
Definition escape_char (c : ascii) : string :=
  if (c =? dquote)%char then String "\" (String dquote "")
  else if (c =? "\")%char then "\\"
  else if (c =? "008")%char then "\b"
  else if (c =? "009")%char then "\t"
  else if (c =? "010")%char then "\n"
  else if (c =? "012")%char then "\f"
  else if (c =? "013")%char then "\r"
  else if is_control c then
    "\u00" ++ String (hex_digit (nat_of_ascii c / 16))
                (String (hex_digit (nat_of_ascii c mod 16)) "")
  else String c "".

Fixpoint escape (s : string) : string :=
  match s with
  | "" => ""
  | String c r => escape_char c ++ escape r
  end.

Definition quote (s : string) : string :=
  String dquote (escape s ++ String dquote "").

Definition num_text (n : Z) : string := NilZero.string_of_int (Z.to_int n).

(** [SerializeJSONProperty] on a value that is not [undefined] at the
    top; [undefined] inside an array is written [null]. *)
Fixpoint json_text (v : value) : string :=
  match v with
  | Undefined | Null => "null"
  | Bool true => "true"
  | Bool false => "false"
  | Num n => num_text n
  | Str s => quote s
  | Arr l => "[" ++ join "," (map json_text l) ++ "]"
  | Obj fs =>
      "{" ++ join "," (members (fun k v => quote k ++ ":" ++ json_text v) fs)
          ++ "}"
  end.

(** [JSON.stringify(v)]: a string, or [undefined] (here [None]). *)
Definition stringify (v : value) : option string :=
  match v with
  | Undefined => None
  | _ => Some (json_text v)
  end.

(** ** JSON.parse *)

Definition unescape (e : ascii) : option ascii :=
  if (e =? dquote)%char then Some dquote
  else if (e =? "\")%char then Some "\"%char
  else if (e =? "/")%char then Some "/"%char
  else if (e =? "b")%char then Some "008"%char
  else if (e =? "t")%char then Some "009"%char
  else if (e =? "n")%char then Some "010"%char
  else if (e =? "f")%char then Some "012"%char
  else if (e =? "r")%char then Some "013"%char
  else None.

Definition hex4 (a b c d : ascii) : option ascii :=
  match hex_val a, hex_val b, hex_val c, hex_val d with
  | Some x, Some y, Some z, Some t =>
      let n := (((x * 16 + y) * 16 + z) * 16 + t)%nat in
      if (n <? 128)%nat then Some (ascii_of_nat n) else None
  | _, _, _, _ => None
  end.

Definition push (c : ascii) (r : option (string * string))
  : option (string * string) :=
  match r with
  | Some (s, rest) => Some (String c s, rest)
  | None => None
  end.

(** The characters of a string literal after its opening quote, up to
    the closing quote; the result is the string and what follows the
    closing quote. *)
Fixpoint parse_string (s : string) : option (string * string) :=
  match s with
  | "" => None
  | String c r =>
      if (c =? dquote)%char then Some ("", r)
      else if (c =? "\")%char then
        match r with
        | "" => None
        | String e r1 =>
            if (e =? "u")%char then
              match r1 with
              | String h1 (String h2 (String h3 (String h4 r2))) =>
                  match hex4 h1 h2 h3 h4 with
                  | Some x => push x (parse_string r2)
                  | None => None
                  end
              | _ => None
              end
            else
              match unescape e with
              | Some x => push x (parse_string r1)
              | None => None
              end
        end
      else if is_control c then None
      else push c (parse_string r)
  end.

(** An integer literal: an optional minus sign, then either a single
    zero or digits that do not start with a zero; that is, the
    canonical decimal form of an integer, or [-0]. *)
Definition parse_num (t : string) : option Z :=
  if t =? "-0" then Some 0%Z
  else match NilZero.int_of_string t with
       | Some d => if num_text (Z.of_int d) =? t then Some (Z.of_int d) else None
       | None => None
       end.

(** Duplicate names in an object literal: the last value wins, at the
    place of the first. *)
Definition build (kvs : list (string * value)) : list (string * value) :=
  fold_left (fun acc kv => assign (fst kv) (snd kv) acc) kvs [].

Fixpoint parse_value (fuel : nat) (s : string) : option (value * string) :=
  match fuel with
  | O => None
  | S f =>
      match skip_ws s with
      | "" => None
      | String c r =>
          if is_numchar c then
            let (t, r') := lex_num (String c r) in
            match parse_num t with
            | Some n => Some (Num n, r')
            | None => None
            end
          else if (c =? "n")%char then
            match strip_prefix "ull" r with
            | Some r' => Some (Null, r')
            | None => None
            end
          else if (c =? "t")%char then
            match strip_prefix "rue" r with
            | Some r' => Some (Bool true, r')
            | None => None
            end
          else if (c =? "f")%char then
            match strip_prefix "alse" r with
            | Some r' => Some (Bool false, r')
            | None => None
            end
          else if (c =? dquote)%char then
            match parse_string r with
            | Some (x, r') => Some (Str x, r')
            | None => None
            end
          else if (c =? "[")%char then
            match skip_ws r with
            | String c' r' =>
                if (c' =? "]")%char then Some (Arr [], r')
                else match parse_elements f r with
                     | Some (l, r'') => Some (Arr l, r'')
                     | None => None
                     end
            | "" => None
            end
          else if (c =? "{")%char then
            match skip_ws r with
            | String c' r' =>
                if (c' =? "}")%char then Some (Obj [], r')
                else match parse_members f r with
                     | Some (kvs, r'') => Some (Obj (build kvs), r'')
                     | None => None
                     end
            | "" => None
            end
          else None
      end
  end

(** One or more elements, then the closing bracket. *)
with parse_elements (fuel : nat) (s : string) : option (list value * string) :=
  match fuel with
  | O => None
  | S f =>
      match parse_value f s with
      | Some (v, r) =>
          match skip_ws r with
          | String c r' =>
              if (c =? ",")%char then
                match parse_elements f r' with
                | Some (l, r'') => Some (v :: l, r'')
                | None => None
                end
              else if (c =? "]")%char then Some ([v], r')
              else None
          | "" => None
          end
      | None => None
      end
  end

(** One or more members, then the closing brace. *)
with parse_members (fuel : nat) (s : string)
  : option (list (string * value) * string) :=
  match fuel with
  | O => None
  | S f =>
      match skip_ws s with
      | String q r =>
          if (q =? dquote)%char then
            match parse_string r with
            | Some (k, r1) =>
                match skip_ws r1 with
                | String c r2 =>
                    if (c =? ":")%char then
                      match parse_value f r2 with
                      | Some (v, r3) =>
                          match skip_ws r3 with
                          | String d r4 =>
                              if (d =? ",")%char then
                                match parse_members f r4 with
                                | Some (kvs, r5) => Some ((k, v) :: kvs, r5)
                                | None => None
                                end
                              else if (d =? "}")%char then Some ([(k, v)], r4)
                              else None
                          | "" => None
                          end
                      | None => None
                      end
                    else None
                | "" => None
                end
            | None => None
            end
          else None
      | "" => None
      end
  end.

(** [JSON.parse(s)]: one value, with nothing but white space after it.
    Every level of the recursion consumes a character, so the length of
    the text bounds its depth. *)
Definition parse (s : string) : result value :=
  match parse_value (S (String.length s)) s with
  | Some (v, r) =>
      match skip_ws r with
      | "" => Ok v
      | _ => Throw SyntaxError
      end
  | None => Throw SyntaxError
  end.

End JSON.

(* ================================================================= *)
(** * The world of the process: file, console, identifiers *)

Module Runtime.

(** Effects, as they are performed (latest first). *)
Inductive event : Type :=
| ReadFile                       (* fs.readFileSync('todos.json') *)
| WriteFile (data : string)      (* fs.writeFileSync('todos.json', data) *)
| ConsoleLog (e : error).        (* console.log(err) *)

Record World : Type := mkWorld {
  file : option string;     (* the content of todos.json, if it exists *)
  can_read : bool;          (* the process may read it *)
  can_write : bool;         (* the process may create and overwrite it *)
  uuids : nat -> string;    (* what the calls of uuid.v4() return, in order *)
  next_uuid : nat;          (* how many identifiers were drawn *)
  trace : list event
}.

(** A computation that may throw and that changes the world. *)
Definition M (A : Type) : Type := World -> result A * World.

Definition ret {A} (a : A) : M A := fun w => (Ok a, w).

Definition throw {A} (e : error) : M A := fun w => (Throw e, w).

Definition bind {A B} (c : M A) (k : A -> M B) : M B :=
  fun w => match c w with
           | (Ok a, w') => k a w'
           | (Throw e, w') => (Throw e, w')
           end.

(** [try { c } catch (err) { h err }]. *)
Definition try_catch {A} (c : M A) (h : error -> M A) : M A :=
  fun w => match c w with
           | (Ok a, w') => (Ok a, w')
           | (Throw e, w') => h e w'
           end.

Definition lift {A} (r : result A) : M A := fun w => (r, w).

Definition emit (ev : event) (w : World) : World :=
  mkWorld (file w) (can_read w) (can_write w) (uuids w) (next_uuid w)
          (ev :: trace w).

Definition set_file (data : string) (w : World) : World :=
  mkWorld (Some data) (can_read w) (can_write w) (uuids w) (next_uuid w)
          (trace w).

Definition console_log (e : error) : M unit :=
  fun w => (Ok tt, emit (ConsoleLog e) w).

(** [fs.readFileSync('todos.json')]. *)
Definition readFileSync : M string :=
  fun w =>
    let w' := emit ReadFile w in
    match file w with
    | None => (Throw ENOENT, w')
    | Some data => if can_read w then (Ok data, w') else (Throw EACCES, w')
    end.

(** [fs.writeFileSync('todos.json', data)]; [data] is the result of
    [JSON.stringify], and [undefined] is not accepted as data. *)
Definition writeFileSync (data : option string) : M unit :=
  fun w =>
    match data with
    | None => (Throw TypeError, w)
    | Some d =>
        let w' := emit (WriteFile d) w in
        if can_write w then (Ok tt, set_file d w') else (Throw EACCES, w')
    end.

(** [uuid.v4()]. *)
Definition uuidV4 : M string :=
  fun w => (Ok (uuids w (next_uuid w)),
            mkWorld (file w) (can_read w) (can_write w) (uuids w)
                    (S (next_uuid w)) (trace w)).

End Runtime.
Export Runtime.

Declare Scope js_scope.
Delimit Scope js_scope with js.
Notation "x <- c ;; k" := (bind c (fun x => k))
  (at level 61, c at next level, right associativity) : js_scope.
Notation "c ;; k" := (bind c (fun _ => k))
  (at level 61, right associativity) : js_scope.
Local Open Scope js_scope.

(* ================================================================= *)
(** * Arrays *)

Module Array.

(** [l.find(pred)], with the index of the element found: the element
    is a reference into the array, and the handlers write through it. *)
Fixpoint find_from (pred : value -> result bool) (i : nat) (l : list value)
  : result (option (nat * value)) :=
  match l with
  | [] => Ok None
  | t :: r =>
      match pred t with
      | Throw e => Throw e
      | Ok true => Ok (Some (i, t))
      | Ok false => find_from pred (S i) r
      end
  end.

(** [todos.find(pred)]: only an array has a [find] to call. *)
Definition find (todos : value) (pred : value -> result bool)
  : result (option (nat * value)) :=
  match todos with
  | Arr l => find_from pred 0 l
  | _ => Throw TypeError
  end.

(** [todos.push(x)]. *)
Definition push (todos : value) (x : value) : result value :=
  match todos with
  | Arr l => Ok (Arr (l ++ [x])%list)
  | _ => Throw TypeError
  end.

Fixpoint replace (i : nat) (x : value) (l : list value) : list value :=
  match l, i with
  | [], _ => []
  | _ :: r, O => x :: r
  | y :: r, S j => y :: replace j x r
  end.

Fixpoint remove (i : nat) (l : list value) : list value :=
  match l, i with
  | [], _ => []
  | _ :: r, O => r
  | y :: r, S j => y :: remove j r
  end.

(** The array once the element at [i] has become [x]. *)
Definition store (todos : value) (i : nat) (x : value) : value :=
  match todos with
  | Arr l => Arr (replace i x l)
  | _ => todos
  end.

(** [todos.splice(i, 1)]. *)
Definition splice1 (todos : value) (i : nat) : value :=
  match todos with
  | Arr l => Arr (remove i l)
  | _ => todos
  end.

End Array.

(* ================================================================= *)
(** * Express: requests, responses, routes *)

Module Express.

Inductive Method : Type := GET | HEAD | POST | PUT | DELETE | PATCH | OPTIONS.

Definition Method_eqb (a b : Method) : bool :=
  match a, b with
  | GET, GET | HEAD, HEAD | POST, POST | PUT, PUT | DELETE, DELETE
  | PATCH, PATCH | OPTIONS, OPTIONS => true
  | _, _ => false
  end.

Record Request : Type := mkRequest {
  method : Method;
  path : string;                       (* req.path *)
  body : value;                        (* req.body, as express.json() leaves it *)
  params : list (string * string)      (* req.params, filled in by the router *)
}.

Inductive Payload : Type :=
| Json (v : value)        (* res.json(v): the text JSON.stringify(v) *)
| Empty                   (* res.send() *)
| ErrorPage (e : error)   (* the default error handler's page *)
| NotFoundPage.           (* the final handler's page *)

Record Response : Type := mkResponse {
  status : nat;
  payload : Payload
}.

(** [req.params.id]. *)
Definition param (req : Request) (name : string) : string :=
  match find (fun kv => fst kv =? name) (params req) with
  | Some (_, x) => x
  | None => ""
  end.

Definition Handler : Type := Request -> M Response.

Record Route : Type := mkRoute {
  verb : option Method;      (* [None] for app.all *)
  pattern : string;
  handler : Handler
}.

(** A route registered for GET also answers HEAD. *)
Definition handles_method (r : Route) (m : Method) : bool :=
  match verb r with
  | None => true
  | Some v => (Method_eqb v m || (Method_eqb v GET && Method_eqb m HEAD))%bool
  end.

(** Segments of a pattern against segments of a path: a literal
    segment is compared without regard to case, [:name] takes one
    segment that is not empty, and one trailing slash is allowed. *)
Fixpoint match_segments (pats segs : list string)
  : option (list (string * string)) :=
  match pats, segs with
  | [], [] => Some []
  | [], [s] => if s =? "" then Some [] else None
  | [], _ => None
  | _ :: _, [] => None
  | String ":" name :: pats', s :: segs' =>
      if s =? "" then None
      else match match_segments pats' segs' with
           | Some ps => Some ((name, s) :: ps)
           | None => None
           end
  | p :: pats', s :: segs' =>
      if lower p =? lower s then match_segments pats' segs' else None
  end.

Definition match_path (pat p : string) : option (list (string * string)) :=
  if pat =? "**" then Some []
  else match_segments (split "/" pat) (split "/" p).

Definition matches (r : Route) (req : Request)
  : option (list (string * string)) :=
  if handles_method r (method req) then match_path (pattern r) (path req)
  else None.

(** A handler that throws is answered by the default error handler. *)
Definition run (h : Handler) (req : Request) (w : World) : Response * World :=
  match h req w with
  | (Ok res, w') => (res, w')
  | (Throw e, w') => (mkResponse 500 (ErrorPage e), w')
  end.

(** The first route, in the order of registration, that matches. *)
Fixpoint dispatch (routes : list Route) (req : Request) (w : World)
  : Response * World :=
  match routes with
  | [] => (mkResponse 404 NotFoundPage, w)
  | r :: rest =>
      match matches r req with
      | Some ps => run (handler r)
                       (mkRequest (method req) (path req) (body req) ps) w
      | None => dispatch rest req w
      end
  end.

End Express.
Export Express.

(* ================================================================= *)
(** * todoServer.js *)

Definition message (text : string) : value := Obj [("message", Str text)].

Definition respond (code : nat) (v : value) : M Response :=
  ret (mkResponse code (Json v)).

Definition saveTodoToFile (todos : value) : M bool :=
  try_catch
    (writeFileSync (JSON.stringify todos) ;;
     ret true)
    (fun err =>
       console_log err ;;
       ret false).

Definition getTodosFromFile : M value :=
  try_catch
    (data <- readFileSync ;;
     lift (JSON.parse data))
    (fun err =>
       console_log err ;;
       ret (Arr [])).

(** [t => t.id === id]. *)
Definition has_id (id : string) (t : value) : result bool :=
  match get_prop t "id" with
  | Ok x => Ok (strict_eq_str x id)
  | Throw e => Throw e
  end.

(** [app.get('/todos', ...)]. *)
Definition get_todos : Handler := fun req =>
  todos <- getTodosFromFile ;;
  respond 200 todos.

(** [app.get('/todos/:id', ...)].  What [find] returns is an object,
    hence truthy: [!todo] is the case where nothing was found. *)
Definition get_todo : Handler := fun req =>
  todos <- getTodosFromFile ;;
  found <- lift (Array.find todos (has_id (param req "id"))) ;;
  match found with
  | None => respond 404 (message "Todo not found")
  | Some (_, todo) => respond 200 todo
  end.

(** [app.post('/todos', ...)]. *)
Definition post_todo : Handler := fun req =>
  id <- uuidV4 ;;
  title <- lift (get_prop (body req) "title") ;;
  description <- lift (get_prop (body req) "description") ;;
  completed <- lift (get_prop (body req) "completed") ;;
  let newTodo := Obj [("id", Str id); ("title", title);
                      ("description", description);
                      ("completed", or_else completed (Bool false))] in
  todos <- getTodosFromFile ;;
  todos <- lift (Array.push todos newTodo) ;;
  saved <- saveTodoToFile todos ;;
  if negb saved then respond 500 (message "Failed to save todo")
  else respond 201 (Obj [("id", field newTodo "id")]).

(** [app.put('/todos/:id', ...)].  [todo] is the element of [todos] at
    the index where [find] met it: the three assignments change the
    array that is saved. *)
Definition put_todo : Handler := fun req =>
  todos <- getTodosFromFile ;;
  found <- lift (Array.find todos (has_id (param req "id"))) ;;
  match found with
  | None => respond 404 (message "Todo not found")
  | Some (i, todo) =>
      title <- lift (get_prop (body req) "title") ;;
      let todo := set_prop todo "title" title in
      description <- lift (get_prop (body req) "description") ;;
      let todo := set_prop todo "description" description in
      completed <- lift (get_prop (body req) "completed") ;;
      let todo := set_prop todo "completed" (or_else completed (Bool false)) in
      let todos := Array.store todos i todo in
      saved <- saveTodoToFile todos ;;
      if negb saved then respond 500 (message "Failed to save todo")
      else respond 200 todo
  end.

(** [app.delete('/todos/:id', ...)].  The elements of a parsed array
    are distinct objects, so [todos.indexOf(todo)] is the index at which
    [find] met [todo]. *)
Definition delete_todo : Handler := fun req =>
  todos <- getTodosFromFile ;;
  found <- lift (Array.find todos (has_id (param req "id"))) ;;
  match found with
  | None => respond 404 (message "Todo not found")
  | Some (i, todo) =>
      let todos := Array.splice1 todos i in
      saved <- saveTodoToFile todos ;;
      if negb saved then respond 500 (message "Failed to save todo")
      else respond 200 (message "Todo deleted")
  end.

(** [app.all("**", ...)]. *)
Definition any_other : Handler := fun req =>
  ret (mkResponse 404 Empty).

(** The five operations on todos, in the order of registration. *)
Definition todo_routes : list Route :=
  [ mkRoute (Some GET) "/todos" get_todos;
    mkRoute (Some GET) "/todos/:id" get_todo;
    mkRoute (Some POST) "/todos" post_todo;
    mkRoute (Some PUT) "/todos/:id" put_todo;
    mkRoute (Some DELETE) "/todos/:id" delete_todo ].

Definition app : list Route :=
  (todo_routes ++ [ mkRoute None "**" any_other ])%list.

(** The application answering one request. *)
Definition serve (req : Request) (w : World) : Response * World :=
  dispatch app req w.

(** A request as it arrives. *)
Definition request (m : Method) (p : string) (b : value) : Request :=
  mkRequest m p b [].

(** [app.use(express.json())]: the text of a request that announces
    JSON is parsed, and only an object or an array is accepted; without
    such a text [req.body] is the empty object. *)
Definition express_json (text : option string) : result value :=
  match text with
  | None | Some "" => Ok (Obj [])
  | Some t =>
      match JSON.parse t with
      | Ok (Obj fs) => Ok (Obj fs)
      | Ok (Arr l) => Ok (Arr l)
      | Ok _ => Throw SyntaxError
      | Throw e => Throw e
      end
  end.

(** The application behind its middleware: a text that is refused is
    answered 400 before any route is tried. *)
Definition receive (m : Method) (p : string) (text : option string) (w : World)
  : Response * World :=
  match express_json text with
  | Ok b => serve (request m p b) w
  | Throw e => (mkResponse 400 (ErrorPage e), w)
  end.

(* ================================================================= *)
(** * Vocabulary of the statements *)

(** ** Induction on values *)

Section ValueInd.
Variable P : value -> Prop.
Hypothesis HUndefined : P Undefined.
Hypothesis HNull : P Null.
Hypothesis HBool : forall b, P (Bool b).
Hypothesis HNum : forall n, P (Num n).
Hypothesis HStr : forall s, P (Str s).
Hypothesis HArr : forall l, Forall P l -> P (Arr l).
Hypothesis HObj : forall fs, Forall (fun kv => P (snd kv)) fs -> P (Obj fs).

Fixpoint value_ind' (v : value) : P v :=
  match v with
  | Undefined => HUndefined
  | Null => HNull
  | Bool b => HBool b
  | Num n => HNum n
  | Str s => HStr s
  | Arr l =>
      HArr l ((fix go (l : list value) : Forall P l :=
                 match l with
                 | [] => Forall_nil _
                 | x :: r => Forall_cons x (value_ind' x) (go r)
                 end) l)
  | Obj fs =>
      HObj fs ((fix go (fs : list (string * value))
                  : Forall (fun kv => P (snd kv)) fs :=
                  match fs with
                  | [] => Forall_nil _
                  | kv :: r => Forall_cons kv (value_ind' (snd kv)) (go r)
                  end) fs)
  end.
End ValueInd.

(** ** JSON texts *)

(** A text of number characters only. *)
Fixpoint all_numchars (s : string) : bool :=
  match s with
  | "" => true
  | String c r => (is_numchar c && all_numchars r)%bool
  end.

(** What follows a number in a text does not go on with it. *)
Definition ends_number (rest : string) : Prop :=
  match rest with
  | "" => True
  | String c _ => is_numchar c = false
  end.

(** The properties of an object that are written. *)
Definition kept (fs : list (string * value)) : list (string * value) :=
  members (fun k v => (k, v)) fs.

(** One property, as written. *)
Definition member_text (kv : string * value) : string :=
  JSON.quote (fst kv) ++ ":" ++ JSON.json_text (snd kv).

(** One property, as read back. *)
Definition strip_member (kv : string * value) : string * value :=
  (fst kv, strip (snd kv)).

(** A value followed by anything reads back as the value, stripped,
    and what followed: the statement proved by induction on the value. *)
Definition reads_back (v : value) : Prop :=
  wf v = true ->
  forall fuel rest,
    String.length (JSON.json_text v) < fuel -> ends_number rest ->
    JSON.parse_value fuel (JSON.json_text v ++ rest) = Some (strip v, rest).

(** A property of an object after the object went through JSON. *)
Definition reread (v : value) : value :=
  match v with
  | Undefined => Undefined
  | _ => strip v
  end.

(** ** The stored list *)

(** What [getTodosFromFile] returns in a world. *)
Definition stored (w : World) : value :=
  match fst (getTodosFromFile w) with
  | Ok v => v
  | Throw _ => Arr []
  end.

(** The identifier of a record. *)
Definition id_of (t : value) : value := field t "id".

(** The identifiers of a list, in its order. *)
Definition ids (l : list value) : list value := map id_of l.

(** A record of the list: an object whose [id] is a string. *)
Definition is_record (t : value) : bool :=
  match t with
  | Obj fs => match lookup "id" fs with Some (Str _) => true | _ => false end
  | _ => false
  end.

(** What [find] returns, without the place. *)
Definition found (x : result (option (nat * value))) : result (option value) :=
  match x with
  | Ok (Some (_, t)) => Ok (Some t)
  | Ok None => Ok None
  | Throw e => Throw e
  end.

(** How many times [fs.writeFileSync] was called with a text. *)
Definition writes (w : World) : nat :=
  List.length (filter (fun ev => match ev with WriteFile _ => true | _ => false end)
                 (trace w)).

(** The invariant of the list: an array of records, no identifier
    twice. *)
Definition consistent (w : World) : Prop :=
  exists l, stored w = Arr l /\ forallb is_record l = true /\ NoDup (ids l).

(** No identifier still to be drawn is in the list. *)
Definition fresh_ids (w : World) : Prop :=
  forall l n, stored w = Arr l -> next_uuid w <= n ->
              ~ In (Str (uuids w n)) (ids l).

(** [uuid.v4] never returns one identifier twice. *)
Definition never_repeats (w : World) : Prop :=
  forall i j, uuids w i = uuids w j -> i = j.

(** The file cannot be loaded: it does not exist, it cannot be read,
    or its content is not JSON. *)
Definition unavailable (w : World) : Prop :=
  file w = None \/ can_read w = false
  \/ exists data e, file w = Some data /\ JSON.parse data = Throw e.

(** ** Paths *)



(** The request is for one of the five operations on todos. *)
Definition is_todo_operation (req : Request) : bool :=
  existsb (fun r => match matches r req with Some _ => true | None => false end)
    todo_routes.

(** ** What a handler does *)

(** What [express.json()] leaves in [req.body]: an object or an array
    of JSON. *)
Definition is_body (b : value) : bool :=
  match b with
  | Obj _ | Arr _ => is_json b
  | _ => false
  end.

(** [undefined] or [null]: reading a property of it throws. *)
Definition nullish (b : value) : bool :=
  match b with
  | Undefined | Null => true
  | _ => false
  end.

(** The record that [app.post] appends. *)
Definition new_todo (id : string) (b : value) : value :=
  Obj [("id", Str id); ("title", field b "title");
       ("description", field b "description");
       ("completed", or_else (field b "completed") (Bool false))].

(** The record after the three assignments of [app.put]. *)
Definition updated (todo b : value) : value :=
  set_prop (set_prop (set_prop todo "title" (field b "title"))
              "description" (field b "description"))
    "completed" (or_else (field b "completed") (Bool false)).

(** The properties of the record after the three assignments. *)
Definition updated_fields (fs : list (string * value)) (b : value)
  : list (string * value) :=
  assign "completed" (or_else (field b "completed") (Bool false))
    (assign "description" (field b "description")
       (assign "title" (field b "title") fs)).

(** What no request changes: the rights on the file and the source of
    identifiers. *)
Definition same_env (w w' : World) : Prop :=
  can_read w' = can_read w /\ can_write w' = can_write w /\ uuids w' = uuids w.

(** The file was not written to. *)
Definition untouched (w w' : World) : Prop :=
  file w' = file w /\ writes w' = writes w.

(** The three answers of failure. *)
Definition failed_save : Response :=
  mkResponse 500 (Json (message "Failed to save todo")).

Definition not_found : Response :=
  mkResponse 404 (Json (message "Todo not found")).

Definition crashed (e : error) : Response := mkResponse 500 (ErrorPage e).

(** The answer of [app.get('/todos/:id')], from what is stored. *)
Definition get_outcome (id : string) (w : World) (r : Response) : Prop :=
  match Array.find (stored w) (has_id id) with
  | Throw e => r = crashed e
  | Ok None => r = not_found
  | Ok (Some (_, todo)) => r = mkResponse 200 (Json todo)
  end.

(** The answer of [app.post] and the world it leaves, from what is
    stored and whether the file can be written. *)
Definition post_outcome (b : value) (w : World) (r : Response) (w' : World)
  : Prop :=
  next_uuid w' = S (next_uuid w) /\
  if nullish b then r = crashed TypeError /\ untouched w w'
  else match stored w with
       | Arr l =>
           writes w' = S (writes w) /\
           if can_write w then
             r = mkResponse 201 (Json (Obj [("id", Str (uuids w (next_uuid w)))]))
             /\ file w' = Some (JSON.json_text
                                  (Arr (l ++ [new_todo (uuids w (next_uuid w)) b])))
           else r = failed_save /\ file w' = file w
       | _ => r = crashed TypeError /\ untouched w w'
       end.

(** The same for [app.put]. *)
Definition put_outcome (id : string) (b : value) (w : World) (r : Response)
  (w' : World) : Prop :=
  next_uuid w' = next_uuid w /\
  match Array.find (stored w) (has_id id) with
  | Throw e => r = crashed e /\ untouched w w'
  | Ok None => r = not_found /\ untouched w w'
  | Ok (Some (i, todo)) =>
      if nullish b then r = crashed TypeError /\ untouched w w'
      else
        writes w' = S (writes w) /\
        if can_write w then
          r = mkResponse 200 (Json (updated todo b))
          /\ file w' = Some (JSON.json_text
                               (Array.store (stored w) i (updated todo b)))
        else r = failed_save /\ file w' = file w
  end.

(** The same for [app.delete]. *)
Definition delete_outcome (id : string) (w : World) (r : Response)
  (w' : World) : Prop :=
  next_uuid w' = next_uuid w /\
  match Array.find (stored w) (has_id id) with
  | Throw e => r = crashed e /\ untouched w w'
  | Ok None => r = not_found /\ untouched w w'
  | Ok (Some (i, todo)) =>
      writes w' = S (writes w) /\
      if can_write w then
        r = mkResponse 200 (Json (message "Todo deleted"))
        /\ file w' = Some (JSON.json_text (Array.splice1 (stored w) i))
      else r = failed_save /\ file w' = file w
  end.

(** What a request with body [b] does to the stored list: nothing, or
    one record more, or one record replaced, or one record less. *)
Inductive effect (b : value) (w w' : World) (r : Response) : Prop :=
| Quiet :
    stored w' = stored w -> next_uuid w <= next_uuid w' -> status r <> 201 ->
    effect b w w' r
| Created l :
    stored w = Arr l -> next_uuid w' = S (next_uuid w) ->
    r = mkResponse 201 (Json (Obj [("id", Str (uuids w (next_uuid w)))])) ->
    stored w' = (if can_read w
                 then Arr (l ++ [strip (new_todo (uuids w (next_uuid w)) b)])
                 else Arr []) ->
    can_write w = true ->
    effect b w w' r
| Updated l i fs :
    stored w = Arr l -> next_uuid w' = next_uuid w ->
    nth_error l i = Some (Obj fs) -> is_json (Obj fs) = true ->
    r = mkResponse 200 (Json (updated (Obj fs) b)) ->
    stored w' = Arr (Array.replace i (strip (updated (Obj fs) b)) l) ->
    can_write w = true ->
    effect b w w' r
| Deleted l i :
    stored w = Arr l -> next_uuid w' = next_uuid w -> i < List.length l ->
    r = mkResponse 200 (Json (message "Todo deleted")) ->
    stored w' = Arr (Array.remove i l) -> can_write w = true ->
    effect b w w' r.

(** ** Runs of requests *)

(** The requests of a run, one after the other. *)
Fixpoint serve_all (reqs : list Request) (w : World) : World :=
  match reqs with
  | [] => w
  | req :: rest => serve_all rest (snd (serve req w))
  end.


(** The answers of a run, in its order. *)
Fixpoint answers (reqs : list Request) (w : World) : list Response :=
  match reqs with
  | [] => []
  | req :: rest => fst (serve req w) :: answers rest (snd (serve req w))
  end.

(** ** Sample worlds and requests *)

(** The process starts: no file yet. *)
Definition world0 : World :=
  mkWorld None true true (fun n => "id-" ++ JSON.num_text (Z.of_nat n)) 0 [].

(** The same world on a disk that cannot be written. *)
Definition read_only (w : World) : World :=
  mkWorld (file w) (can_read w) false (uuids w) (next_uuid w) (trace w).

Definition groceries : value :=
  Obj [("title", Str "Buy groceries");
       ("description", Str "I should buy groceries")].

Definition groceries_done : value :=
  Obj [("title", Str "Buy groceries");
       ("description", Str "I should buy groceries");
       ("completed", Bool true)].

Definition milk : value :=
  Obj [("title", Str "Buy milk"); ("description", Str "Two bottles")].

(** One record, [id-0], not completed. *)
Definition world1 : World := snd (serve (request POST "/todos" groceries) world0).

(** One record, [id-0], completed. *)
Definition world_done : World :=
  snd (serve (request POST "/todos" groceries_done) world0).

(** Two records, [id-0] and [id-1]. *)
Definition world2 : World := snd (serve (request POST "/todos" milk) world1).


Definition busy_day : list Request :=
  [ request POST "/todos" groceries;
    request POST "/todos" (Obj [("id", Str "id-0"); ("title", Str "same id?")]);
    request PUT "/todos/id-0" (Obj [("id", Str "id-1"); ("title", Str "renamed")]);
    request POST "/todos" milk;
    request DELETE "/todos/id-1" (Obj []);
    request POST "/todos" groceries_done ].

(** The same world with the file holding [data]. *)
Definition with_file (data : string) (w : World) : World :=
  mkWorld (Some data) (can_read w) (can_write w) (uuids w) (next_uuid w)
          (trace w).

(* ================================================================= *)
(** * Facts about JSON *)

Lemma append_nil_r (s : string) : s ++ "" = s.
Proof. induction s; simpl; congruence. Qed.

Lemma append_assoc (a b c : string) : (a ++ b) ++ c = a ++ (b ++ c).
Proof. induction a; simpl; congruence. Qed.

Lemma length_append (a b : string) :
  String.length (a ++ b) = String.length a + String.length b.
Proof. induction a; simpl; congruence. Qed.

Lemma parse_escape_char (c : ascii) (t : string) :
  JSON.parse_string (JSON.escape_char c ++ t) = JSON.push c (JSON.parse_string t).
Proof.
  destruct c as [[] [] [] [] [] [] [] []]; reflexivity.
Qed.

Lemma parse_string_escape (s rest : string) :
  JSON.parse_string (JSON.escape s ++ String dquote rest) = Some (s, rest).
Proof.
  induction s as [|c s IH]; simpl.
  - reflexivity.
  - rewrite append_assoc, parse_escape_char, IH. reflexivity.
Qed.

(** ** Numbers *)

Lemma lex_num_append (t rest : string) :
  all_numchars t = true -> ends_number rest -> lex_num (t ++ rest) = (t, rest).
Proof.
  intros Ht Hr. induction t as [|c t IH]; simpl in *.
  - destruct rest as [|c r]; simpl in *; [reflexivity|]. now rewrite Hr.
  - apply andb_prop in Ht as [Hc Ht]. rewrite Hc, (IH Ht). reflexivity.
Qed.

Lemma uint_numchars (d : Decimal.uint) :
  all_numchars (NilEmpty.string_of_uint d) = true.
Proof. induction d; simpl; auto. Qed.

Lemma num_text_numchars (n : Z) : all_numchars (JSON.num_text n) = true.
Proof.
  unfold JSON.num_text, NilZero.string_of_int, NilZero.string_of_uint.
  destruct (Z.to_int n) as [d|d]; destruct d; simpl; auto using uint_numchars.
Qed.

Lemma to_int_nonnil (n : Z) :
  Z.to_int n <> Decimal.Pos Decimal.Nil /\ Z.to_int n <> Decimal.Neg Decimal.Nil.
Proof.
  destruct n as [|p|p]; simpl; split; try discriminate;
    intros [= H]; now apply Unsigned.to_uint_nonnil in H.
Qed.

Lemma num_text_head (n : Z) :
  exists c t, JSON.num_text n = String c t /\ is_numchar c = true.
Proof.
  pose proof (num_text_numchars n) as H.
  destruct (JSON.num_text n) as [|c t] eqn:E.
  - exfalso. unfold JSON.num_text in E.
    destruct (to_int_nonnil n) as [H1 H2].
    pose proof (NilZero.isi _ H1 H2) as Hi. rewrite E in Hi. discriminate.
  - simpl in H. apply andb_prop in H as [Hc _]. eauto.
Qed.

Lemma parse_num_text (n : Z) : JSON.parse_num (JSON.num_text n) = Some n.
Proof.
  unfold JSON.parse_num.
  destruct (to_int_nonnil n) as [H1 H2].
  pose proof (NilZero.isi _ H1 H2) as Hi. fold (JSON.num_text n) in Hi.
  destruct (String.eqb_spec (JSON.num_text n) "-0") as [E|_].
  - rewrite E in Hi. simpl in Hi. injection Hi as Hi.
    rewrite <- (DecimalZ.of_to n), <- Hi. reflexivity.
  - rewrite Hi, DecimalZ.of_to, String.eqb_refl. reflexivity.
Qed.

(** ** Objects *)

Lemma members_map {B} (f : string -> value -> B) fs :
  members f fs = map (fun kv => f (fst kv) (snd kv)) (kept fs).
Proof.
  induction fs as [|[k v] r IH]; simpl; [reflexivity|].
  destruct v; simpl; congruence.
Qed.

Lemma kept_incl fs kv : In kv (kept fs) -> In kv fs.
Proof.
  induction fs as [|[k v] r IH]; simpl; [tauto|].
  destruct v; simpl; intuition.
Qed.

Lemma existsb_eqb_In (x : string) (l : list string) :
  existsb (String.eqb x) l = true <-> In x l.
Proof.
  rewrite existsb_exists. split.
  - intros (y & Hy & E). apply String.eqb_eq in E. now subst.
  - intros H. exists x. split; [assumption|apply String.eqb_refl].
Qed.

Lemma distinct_NoDup (l : list string) : distinct l = true <-> NoDup l.
Proof.
  induction l as [|x r IH]; simpl.
  - split; [constructor|reflexivity].
  - rewrite andb_true_iff, negb_true_iff, IH. split.
    + intros [Hx Hr]. constructor; [|assumption].
      rewrite <- existsb_eqb_In. congruence.
    + intros H. inversion H as [|? ? Hx Hr]; subst. split; [|assumption].
      destruct (existsb (String.eqb x) r) eqn:E; [|reflexivity].
      apply existsb_eqb_In in E. contradiction.
Qed.

Lemma keys_kept_NoDup fs : NoDup (keys fs) -> NoDup (keys (kept fs)).
Proof.
  unfold keys. induction fs as [|[k v] r IH]; simpl; intros H; [constructor|].
  inversion H as [|? ? Hk Hr]; subst.
  assert (Hin : ~ In k (map fst (kept r))).
  { intros Hi. apply Hk. apply in_map_iff in Hi as (kv & <- & Hi).
    apply in_map. now apply kept_incl. }
  destruct v; simpl; auto; constructor; auto.
Qed.

Lemma assign_fresh k v fs : ~ In k (keys fs) -> assign k v fs = (fs ++ [(k, v)])%list.
Proof.
  unfold keys. induction fs as [|[k' v'] r IH]; simpl; intros H; [reflexivity|].
  destruct (String.eqb_spec k' k) as [->|_]; [tauto|].
  rewrite IH; tauto.
Qed.

Lemma build_from kvs : forall acc,
  NoDup (keys acc ++ keys kvs)%list ->
  fold_left (fun acc kv => assign (fst kv) (snd kv) acc) kvs acc = (acc ++ kvs)%list.
Proof.
  unfold keys. induction kvs as [|[k v] r IH]; intros acc H; simpl.
  - now rewrite app_nil_r.
  - rewrite assign_fresh.
    + rewrite IH.
      * now rewrite <- app_assoc.
      * rewrite map_app. simpl. rewrite <- app_assoc. exact H.
    + simpl in H. apply NoDup_remove_2 in H. intros Hi. apply H.
      apply in_or_app. now left.
Qed.

Lemma build_distinct kvs : NoDup (keys kvs) -> JSON.build kvs = kvs.
Proof. intros H. unfold JSON.build. now rewrite build_from. Qed.

(** ** The text of a value reads back as the value *)

Lemma json_text_Arr l :
  JSON.json_text (Arr l) = "[" ++ join "," (map JSON.json_text l) ++ "]".
Proof. reflexivity. Qed.

Lemma json_text_Obj fs :
  JSON.json_text (Obj fs) = "{" ++ join "," (map member_text (kept fs)) ++ "}".
Proof. simpl. now rewrite members_map. Qed.

Lemma strip_Obj fs : strip (Obj fs) = Obj (map strip_member (kept fs)).
Proof. simpl. now rewrite members_map. Qed.

Lemma numchar_dispatch (c : ascii) :
  is_numchar c = true -> is_ws c = false /\ (c =? "]")%char = false.
Proof.
  destruct c as [[] [] [] [] [] [] [] []]; try (split; reflexivity); discriminate.
Qed.

(** A value's text starts with a character that is neither white space
    nor a closing bracket. *)
Lemma json_text_head (v : value) :
  exists c t, JSON.json_text v = String c t /\ is_ws c = false
              /\ (c =? "]")%char = false.
Proof.
  destruct v as [| |[]|n|s|l|fs]; simpl;
    try (eexists _, _; repeat split; reflexivity).
  destruct (num_text_head n) as (c & t & E & Hc).
  exists c, t. split; [assumption|]. now apply numchar_dispatch.
Qed.

Lemma parse_value_S f s :
  JSON.parse_value (S f) s =
  match skip_ws s with
  | "" => None
  | String c r =>
      if is_numchar c then
        let (t, r') := lex_num (String c r) in
        match JSON.parse_num t with
        | Some n => Some (Num n, r')
        | None => None
        end
      else if (c =? "n")%char then
        match strip_prefix "ull" r with
        | Some r' => Some (Null, r')
        | None => None
        end
      else if (c =? "t")%char then
        match strip_prefix "rue" r with
        | Some r' => Some (Bool true, r')
        | None => None
        end
      else if (c =? "f")%char then
        match strip_prefix "alse" r with
        | Some r' => Some (Bool false, r')
        | None => None
        end
      else if (c =? dquote)%char then
        match JSON.parse_string r with
        | Some (x, r') => Some (Str x, r')
        | None => None
        end
      else if (c =? "[")%char then
        match skip_ws r with
        | String c' r' =>
            if (c' =? "]")%char then Some (Arr [], r')
            else match JSON.parse_elements f r with
                 | Some (l, r'') => Some (Arr l, r'')
                 | None => None
                 end
        | "" => None
        end
      else if (c =? "{")%char then
        match skip_ws r with
        | String c' r' =>
            if (c' =? "}")%char then Some (Obj [], r')
            else match JSON.parse_members f r with
                 | Some (kvs, r'') => Some (Obj (JSON.build kvs), r'')
                 | None => None
                 end
        | "" => None
        end
      else None
  end.
Proof. reflexivity. Qed.

Lemma parse_elements_S f s :
  JSON.parse_elements (S f) s =
  match JSON.parse_value f s with
  | Some (v, r) =>
      match skip_ws r with
      | String c r' =>
          if (c =? ",")%char then
            match JSON.parse_elements f r' with
            | Some (l, r'') => Some (v :: l, r'')
            | None => None
            end
          else if (c =? "]")%char then Some ([v], r')
          else None
      | "" => None
      end
  | None => None
  end.
Proof. reflexivity. Qed.

Lemma parse_members_S f s :
  JSON.parse_members (S f) s =
  match skip_ws s with
  | String q r =>
      if (q =? dquote)%char then
        match JSON.parse_string r with
        | Some (k, r1) =>
            match skip_ws r1 with
            | String c r2 =>
                if (c =? ":")%char then
                  match JSON.parse_value f r2 with
                  | Some (v, r3) =>
                      match skip_ws r3 with
                      | String d r4 =>
                          if (d =? ",")%char then
                            match JSON.parse_members f r4 with
                            | Some (kvs, r5) => Some ((k, v) :: kvs, r5)
                            | None => None
                            end
                          else if (d =? "}")%char then Some ([(k, v)], r4)
                          else None
                      | "" => None
                      end
                  | None => None
                  end
                else None
            | "" => None
            end
        | None => None
        end
      else None
  | "" => None
  end.
Proof. reflexivity. Qed.

Lemma join_cons2 sep (x y : string) (r : list string) :
  join sep (x :: y :: r) = x ++ sep ++ join sep (y :: r).
Proof. reflexivity. Qed.

Lemma elements_read_back (l : list value) :
  Forall reads_back l -> forallb wf l = true -> l <> [] ->
  forall fuel rest,
    String.length (join "," (map JSON.json_text l)) + 1 < fuel ->
    JSON.parse_elements fuel (join "," (map JSON.json_text l) ++ String "]" rest)
    = Some (map strip l, rest).
Proof.
  induction 1 as [|x r Hx Hr IH]; [congruence|].
  intros Hwf _ fuel rest Hfuel. simpl in Hwf. apply andb_prop in Hwf as [Hwx Hwr].
  destruct fuel as [|f]; [lia|]. rewrite parse_elements_S.
  destruct r as [|y r'].
  - simpl in *. rewrite (Hx Hwx); [|lia|exact eq_refl]. reflexivity.
  - rewrite !map_cons, join_cons2 in *. rewrite <- !map_cons in *.
    set (J := join "," (map JSON.json_text (y :: r'))) in *.
    rewrite !length_append in Hfuel. simpl String.length in Hfuel.
    rewrite append_assoc. rewrite (Hx Hwx); [|lia|exact eq_refl].
    change (("," ++ J) ++ String "]" rest) with (String "," (J ++ String "]" rest)).
    cbn [skip_ws is_ws Ascii.eqb Bool.eqb orb]. 
    rewrite IH; [reflexivity|assumption|discriminate|lia].
Qed.

Lemma members_read_back (kvs : list (string * value)) :
  Forall (fun kv => reads_back (snd kv)) kvs ->
  forallb (fun kv => wf (snd kv)) kvs = true -> kvs <> [] ->
  forall fuel rest,
    String.length (join "," (map member_text kvs)) + 1 < fuel ->
    JSON.parse_members fuel (join "," (map member_text kvs) ++ String "}" rest)
    = Some (map strip_member kvs, rest).
Proof.
  induction 1 as [|[k x] r Hx Hr IH]; [congruence|].
  intros Hwf _ fuel rest Hfuel. simpl in Hwf. apply andb_prop in Hwf as [Hwx Hwr].
  destruct fuel as [|f]; [lia|]. rewrite parse_members_S.
  simpl in Hx.
  assert (Hm : forall t, member_text (k, x) ++ t
                = String dquote (JSON.escape k ++ String dquote
                    (String ":" (JSON.json_text x ++ t)))).
  { intros t. unfold member_text, JSON.quote. simpl.
    now rewrite !append_assoc. }
  assert (Hlen : String.length (JSON.json_text x)
                 < String.length (member_text (k, x))).
  { unfold member_text, JSON.quote. simpl. rewrite !length_append. simpl. lia. }
  destruct r as [|y r'].
  - simpl map in *. simpl join in *. rewrite Hm.
    cbn [skip_ws is_ws Ascii.eqb Bool.eqb orb dquote].
    rewrite parse_string_escape.
    cbn [skip_ws is_ws Ascii.eqb Bool.eqb orb].
    rewrite (Hx Hwx); [|lia|exact eq_refl]. reflexivity.
  - rewrite !map_cons, join_cons2 in *. rewrite <- !map_cons in *.
    set (J := join "," (map member_text (y :: r'))) in *.
    rewrite !length_append in Hfuel. change (String.length ",") with 1 in Hfuel.
    rewrite append_assoc, Hm.
    cbn [skip_ws is_ws Ascii.eqb Bool.eqb orb dquote].
    rewrite parse_string_escape.
    cbn [skip_ws is_ws Ascii.eqb Bool.eqb orb].
    rewrite (Hx Hwx); [|lia|exact eq_refl].
    change (("," ++ J) ++ String "}" rest) with (String "," (J ++ String "}" rest)).
    cbn [skip_ws is_ws Ascii.eqb Bool.eqb orb].
    rewrite IH; [reflexivity|assumption|discriminate|lia].
Qed.

Lemma Forall_kept (P : string * value -> Prop) fs :
  Forall P fs -> Forall P (kept fs).
Proof.
  intros H. apply Forall_forall. intros kv Hin.
  rewrite Forall_forall in H. apply H. now apply kept_incl.
Qed.

Lemma forallb_kept (p : string * value -> bool) fs :
  forallb p fs = true -> forallb p (kept fs) = true.
Proof.
  rewrite !forallb_forall. intros H kv Hin. apply H. now apply kept_incl.
Qed.

Lemma keys_strip_members kvs : keys (map strip_member kvs) = keys kvs.
Proof. unfold keys. rewrite map_map. reflexivity. Qed.

Lemma parse_value_bracket f r :
  JSON.parse_value (S f) (String "[" r) =
  match skip_ws r with
  | String c' r' =>
      if (c' =? "]")%char then Some (Arr [], r')
      else match JSON.parse_elements f r with
           | Some (l, r'') => Some (Arr l, r'')
           | None => None
           end
  | "" => None
  end.
Proof. reflexivity. Qed.

Lemma parse_value_brace f r :
  JSON.parse_value (S f) (String "{" r) =
  match skip_ws r with
  | String c' r' =>
      if (c' =? "}")%char then Some (Obj [], r')
      else match JSON.parse_members f r with
           | Some (kvs, r'') => Some (Obj (JSON.build kvs), r'')
           | None => None
           end
  | "" => None
  end.
Proof. reflexivity. Qed.

Lemma parse_value_quote f r :
  JSON.parse_value (S f) (String dquote r) =
  match JSON.parse_string r with
  | Some (x, r') => Some (Str x, r')
  | None => None
  end.
Proof. reflexivity. Qed.

Lemma value_reads_back (v : value) : reads_back v.
Proof.
  induction v as [| |b|n|s|l IH|fs IH] using value_ind';
    intros Hwf fuel rest Hfuel Hrest;
    (destruct fuel as [|f]; [lia|]).
  - reflexivity.
  - reflexivity.
  - destruct b; reflexivity.
  - rewrite parse_value_S.
    destruct (num_text_head n) as (c & t & E & Hc).
    change (JSON.json_text (Num n)) with (JSON.num_text n).
    pose proof (lex_num_append (JSON.num_text n) rest (num_text_numchars n) Hrest) as L.
    rewrite E in L |- *. simpl append in L |- *.
    cbn [skip_ws]. rewrite (proj1 (numchar_dispatch c Hc)), Hc, L.
    rewrite <- E, parse_num_text. reflexivity.
  - change (JSON.json_text (Str s) ++ rest)
      with (String dquote ((JSON.escape s ++ String dquote "") ++ rest)).
    rewrite append_assoc. simpl append.
    rewrite parse_value_quote, parse_string_escape. reflexivity.
  - rewrite json_text_Arr in *. simpl in Hwf.
    destruct l as [|x r].
    + reflexivity.
    + set (J := join "," (map JSON.json_text (x :: r))) in *.
      change (("[" ++ J ++ "]") ++ rest) with (String "[" ((J ++ "]") ++ rest)).
      rewrite append_assoc. change ("]" ++ rest) with (String "]" rest).
      rewrite parse_value_bracket.
      assert (HJ : exists c t, J = String c t /\ is_ws c = false
                               /\ (c =? "]")%char = false).
      { subst J. destruct (json_text_head x) as (c & t & E & Hc).
        destruct r; simpl; rewrite E; simpl; eauto. }
      destruct HJ as (c & t & EJ & Hws & Hcl).
      rewrite EJ at 1. simpl append. cbn [skip_ws]. rewrite Hws, Hcl.
      simpl String.length in Hfuel. rewrite !length_append in Hfuel.
      simpl String.length in Hfuel.
      unfold J. rewrite elements_read_back;
        [reflexivity|assumption|assumption|discriminate|fold J; lia].
  - rewrite json_text_Obj in *. rewrite strip_Obj. simpl in Hwf.
    apply andb_prop in Hwf as [Hk Hwf].
    apply distinct_NoDup in Hk.
    apply Forall_kept in IH. apply forallb_kept in Hwf.
    apply keys_kept_NoDup in Hk.
    destruct (kept fs) as [|kv r] eqn:Ek.
    + reflexivity.
    + set (J := join "," (map member_text (kv :: r))) in *.
      change (("{" ++ J ++ "}") ++ rest) with (String "{" ((J ++ "}") ++ rest)).
      rewrite append_assoc. change ("}" ++ rest) with (String "}" rest).
      rewrite parse_value_brace.
      assert (HJ : exists t, J = String dquote t).
      { subst J. destruct kv as [k x].
        destruct r; unfold member_text, JSON.quote; simpl; eauto. }
      destruct HJ as (t & EJ).
      rewrite EJ at 1. simpl append. cbn [skip_ws is_ws dquote Ascii.eqb Bool.eqb orb].
      simpl String.length in Hfuel. rewrite !length_append in Hfuel.
      simpl String.length in Hfuel.
      unfold J. rewrite members_read_back;
        [|assumption|assumption|discriminate|fold J; lia].
      rewrite build_distinct; [reflexivity|].
      now rewrite keys_strip_members.
Qed.

(** [JSON.parse(JSON.stringify(v))]. *)
Lemma parse_json_text (v : value) :
  wf v = true -> JSON.parse (JSON.json_text v) = Ok (strip v).
Proof.
  intros Hwf. unfold JSON.parse.
  rewrite <- (append_nil_r (JSON.json_text v)) at 2.
  rewrite (value_reads_back v Hwf); [reflexivity|lia|exact I].
Qed.

(** ** Values of JSON *)

Lemma is_json_wf (v : value) : is_json v = true -> wf v = true.
Proof.
  induction v as [| |b|n|s|l IH|fs IH] using value_ind'; simpl; auto.
  - intros H. rewrite forallb_forall in *. rewrite Forall_forall in IH. auto.
  - intros H. apply andb_prop in H as [Hk H]. rewrite Hk. simpl.
    rewrite forallb_forall in *. rewrite Forall_forall in IH. auto.
Qed.

Lemma kept_json fs :
  forallb (fun kv => is_json (snd kv)) fs = true -> kept fs = fs.
Proof.
  induction fs as [|[k v] r IH]; simpl; [reflexivity|].
  intros H. apply andb_prop in H as [Hv Hr].
  destruct v; simpl in *; try discriminate; now rewrite (IH Hr).
Qed.

Lemma strip_json (v : value) : is_json v = true -> strip v = v.
Proof.
  induction v as [| |b|n|s|l IH|fs IH] using value_ind'; simpl; auto.
  - discriminate.
  - intros H. f_equal. rewrite forallb_forall in H. rewrite Forall_forall in IH.
    rewrite <- (map_id l) at 2. apply map_ext_in. auto.
  - intros H. apply andb_prop in H as [_ H]. f_equal.
    rewrite members_map, (kept_json _ H).
    rewrite forallb_forall in H. rewrite Forall_forall in IH.
    rewrite <- (map_id fs) at 2. apply map_ext_in.
    intros [k v] Hin. simpl. f_equal. apply (IH _ Hin). apply (H _ Hin).
Qed.

Lemma strip_is_json (v : value) : wf v = true -> is_json (strip v) = true.
Proof.
  induction v as [| |b|n|s|l IH|fs IH] using value_ind'; simpl; auto.
  - intros H. rewrite forallb_forall in *. rewrite Forall_forall in IH.
    intros x Hx. apply in_map_iff in Hx as (y & <- & Hy). auto.
  - intros H. apply andb_prop in H as [Hk H].
    rewrite members_map. apply andb_true_intro. split.
    + apply distinct_NoDup. apply distinct_NoDup in Hk.
      change (NoDup (keys (map strip_member (kept fs)))).
      rewrite keys_strip_members. now apply keys_kept_NoDup.
    + rewrite forallb_forall in *. rewrite Forall_forall in IH.
      intros x Hx. apply in_map_iff in Hx as (y & <- & Hy). simpl.
      apply kept_incl in Hy. auto.
Qed.

(** ** What the parser returns *)

Lemma keys_assign k v fs :
  keys (assign k v fs) = if existsb (String.eqb k) (keys fs) then keys fs
                         else (keys fs ++ [k])%list.
Proof.
  unfold keys. induction fs as [|[k' v'] r IH]; simpl; [reflexivity|].
  rewrite (String.eqb_sym k k').
  destruct (String.eqb_spec k' k) as [->|_]; simpl; [reflexivity|].
  rewrite IH. now destruct (existsb (String.eqb k) (map fst r)).
Qed.

Lemma assign_NoDup k v fs : NoDup (keys fs) -> NoDup (keys (assign k v fs)).
Proof.
  intros H. rewrite keys_assign.
  destruct (existsb (String.eqb k) (keys fs)) eqn:E; [assumption|].
  apply NoDup_app; [assumption|repeat constructor; simpl; tauto|].
  intros x Hx [<-|[]]. apply existsb_eqb_In in Hx. congruence.
Qed.

Lemma assign_forallb (p : value -> bool) k v fs :
  p v = true -> forallb (fun kv => p (snd kv)) fs = true ->
  forallb (fun kv => p (snd kv)) (assign k v fs) = true.
Proof.
  intros Hv. induction fs as [|[k' v'] r IH]; simpl.
  - now rewrite Hv.
  - intros H. apply andb_prop in H as [H1 H2].
    destruct (k' =? k); simpl; rewrite ?Hv, ?H1, ?H2, ?IH; auto.
Qed.

Lemma build_json kvs :
  forallb (fun kv => is_json (snd kv)) kvs = true ->
  is_json (Obj (JSON.build kvs)) = true.
Proof.
  intros H. unfold JSON.build.
  assert (G : forall acc,
             NoDup (keys acc) ->
             forallb (fun kv => is_json (snd kv)) acc = true ->
             let r := fold_left (fun acc kv => assign (fst kv) (snd kv) acc) kvs acc in
             NoDup (keys r) /\ forallb (fun kv => is_json (snd kv)) r = true).
  { induction kvs as [|[k v] r IH]; simpl; intros acc Hn Ha; [auto|].
    simpl in H. apply andb_prop in H as [Hv Hr].
    apply IH; [assumption|now apply assign_NoDup|now apply assign_forallb]. }
  destruct (G [] (NoDup_nil _) eq_refl) as [G1 G2].
  simpl. apply andb_true_intro. split; [now apply distinct_NoDup|assumption].
Qed.

Lemma parser_returns_json (fuel : nat) :
  (forall s v r, JSON.parse_value fuel s = Some (v, r) -> is_json v = true) /\
  (forall s l r, JSON.parse_elements fuel s = Some (l, r) ->
                 forallb is_json l = true) /\
  (forall s kvs r, JSON.parse_members fuel s = Some (kvs, r) ->
                   forallb (fun kv => is_json (snd kv)) kvs = true).
Proof.
  induction fuel as [|f (IHv & IHe & IHm)].
  - repeat split; discriminate.
  - repeat split.
    + intros s v r. rewrite parse_value_S.
      repeat match goal with
             | |- context [match ?x with _ => _ end] => destruct x eqn:?
             | |- context [if ?x then _ else _] => destruct x eqn:?
             end; intros [= <- <-]; try reflexivity; try discriminate.
      * simpl. eapply IHe. eassumption.
      * apply build_json. eapply IHm. eassumption.
    + intros s l r. rewrite parse_elements_S.
      repeat match goal with
             | |- context [match ?x with _ => _ end] => destruct x eqn:?
             | |- context [if ?x then _ else _] => destruct x eqn:?
             end; intros [= <- <-]; try discriminate; simpl.
      * erewrite IHv by eassumption. eapply IHe. eassumption.
      * erewrite IHv by eassumption. reflexivity.
    + intros s kvs r. rewrite parse_members_S.
      repeat match goal with
             | |- context [match ?x with _ => _ end] => destruct x eqn:?
             | |- context [if ?x then _ else _] => destruct x eqn:?
             end; intros [= <- <-]; try discriminate; simpl.
      * erewrite IHv by eassumption. eapply IHm. eassumption.
      * erewrite IHv by eassumption. reflexivity.
Qed.

Lemma parse_is_json s v : JSON.parse s = Ok v -> is_json v = true.
Proof.
  unfold JSON.parse.
  destruct (JSON.parse_value _ s) as [[v' r]|] eqn:E; [|discriminate].
  destruct (skip_ws r); [|discriminate]. intros [= <-].
  eapply (proj1 (parser_returns_json _)). eassumption.
Qed.

(* ================================================================= *)
(** * Facts about the handlers *)

Arguments JSON.parse : simpl never.
Arguments JSON.json_text : simpl never.
Arguments match_path : simpl never.

Lemma stored_eq w :
  stored w = match file w with
             | Some data =>
                 if can_read w then
                   match JSON.parse data with Ok v => v | Throw _ => Arr [] end
                 else Arr []
             | None => Arr []
             end.
Proof.
  destruct w as [[d|] [] cw u n tr]; unfold stored, getTodosFromFile, try_catch,
    bind, readFileSync, lift, console_log, ret; simpl; try reflexivity.
  destruct (JSON.parse d); reflexivity.
Qed.

Lemma load_eq w :
  exists w', getTodosFromFile w = (Ok (stored w), w')
    /\ file w' = file w /\ can_read w' = can_read w /\ can_write w' = can_write w
    /\ uuids w' = uuids w /\ next_uuid w' = next_uuid w /\ writes w' = writes w.
Proof.
  destruct w as [[d|] [] cw u n tr]; unfold stored, getTodosFromFile, try_catch,
    bind, readFileSync, lift, console_log, ret; simpl;
    try destruct (JSON.parse d); simpl; eexists; repeat split.
Qed.

Lemma stored_json w : is_json (stored w) = true.
Proof.
  rewrite stored_eq. destruct (file w) as [d|]; [|reflexivity].
  destruct (can_read w); [|reflexivity].
  destruct (JSON.parse d) eqn:E; [|reflexivity]. now apply parse_is_json in E.
Qed.

Lemma save_eq l w :
  exists w', saveTodoToFile (Arr l) w = (Ok (can_write w), w')
    /\ file w' = (if can_write w then Some (JSON.json_text (Arr l)) else file w)
    /\ can_read w' = can_read w /\ can_write w' = can_write w
    /\ uuids w' = uuids w /\ next_uuid w' = next_uuid w
    /\ writes w' = S (writes w).
Proof.
  destruct w as [f cr [] u n tr]; unfold saveTodoToFile, try_catch, bind,
    writeFileSync, console_log, ret; simpl; eexists; repeat split.
Qed.

(** ** Routing *)

Lemma item_path p ps :
  match_path "/todos/:id" p = Some ps ->
  match_path "/todos" p = None /\ exists id, ps = [("id", id)].
Proof.
  unfold match_path. simpl.
  destruct (Text.split "/" p) as [|s0 [|s1 [|s2 [|s3 l]]]]; simpl;
    repeat match goal with
           | |- context [if ?x then _ else _] => destruct x eqn:?
           | |- context [match ?x with [] => _ | _ :: _ => _ end] => destruct x
           end; simpl; try discriminate;
    intros [= <-]; split; eauto; congruence.
Qed.



Lemma collection_path : match_path "/todos" "/todos" = Some [].
Proof. reflexivity. Qed.

(** ** What each handler does *)

Lemma body_json b : is_body b = true -> is_json b = true.
Proof. destruct b; simpl; auto; discriminate. Qed.

Lemma body_not_nullish b : is_body b = true -> nullish b = false.
Proof. destruct b; simpl; auto; discriminate. Qed.


Lemma get_prop_field b k : nullish b = false -> get_prop b k = Ok (field b k).
Proof. destruct b; simpl; try discriminate; reflexivity. Qed.

Lemma get_prop_nullish b k : nullish b = true -> get_prop b k = Throw TypeError.
Proof. destruct b; simpl; try discriminate; reflexivity. Qed.

Lemma find_array todos pred x :
  Array.find todos pred = Ok x -> exists l, todos = Arr l.
Proof. destruct todos; simpl; try discriminate; eauto. Qed.

Lemma stored_same w w' :
  file w' = file w -> can_read w' = can_read w -> stored w' = stored w.
Proof. intros H1 H2. rewrite !stored_eq, H1, H2. reflexivity. Qed.

Ltac load_in w :=
  let w1 := fresh "w1" in
  let E := fresh "Eload" in
  destruct (load_eq w) as (w1 & E & ? & ? & ? & ? & ? & ?);
  unfold bind at 1; rewrite E.

Lemma get_todos_run m p b ps w :
  exists w', run get_todos (mkRequest m p b ps) w
             = (mkResponse 200 (Json (stored w)), w')
    /\ same_env w w' /\ untouched w w' /\ next_uuid w' = next_uuid w.
Proof.
  unfold run, get_todos. load_in w. unfold respond, ret.
  eexists; repeat split; assumption.
Qed.

Lemma get_todo_run m p b id w :
  exists r w', run get_todo (mkRequest m p b [("id", id)]) w = (r, w')
    /\ get_outcome id w r
    /\ same_env w w' /\ untouched w w' /\ next_uuid w' = next_uuid w.
Proof.
  unfold run, get_todo, get_outcome. load_in w. unfold param. simpl.
  unfold bind, lift.
  destruct (Array.find (stored w) (has_id id)) as [[[i todo]|]|e];
    unfold respond, ret; eexists _, _; repeat split; try eassumption; reflexivity.
Qed.

Ltac done_run :=
  unfold respond, ret, untouched, same_env, crashed, failed_save, not_found,
    new_todo;
  eexists _, _; repeat split; simpl; solve [reflexivity | congruence].

Lemma post_run m p b ps w :
  exists r w', run post_todo (mkRequest m p b ps) w = (r, w')
    /\ post_outcome b w r w' /\ same_env w w'.
Proof.
  unfold run, post_todo, post_outcome.
  unfold bind at 1. unfold uuidV4 at 1.
  set (w0 := mkWorld _ _ _ _ _ _).
  assert (Hs : stored w0 = stored w) by (apply stored_same; reflexivity).
  assert (Hw : writes w0 = writes w) by reflexivity.
  destruct (nullish b) eqn:Hb.
  - unfold bind at 1. rewrite (get_prop_nullish _ _ Hb). unfold lift.
    done_run.
  - cbn [body]. unfold bind at 1, lift at 1. rewrite (get_prop_field _ _ Hb).
    unfold bind at 1, lift at 1. rewrite (get_prop_field _ _ Hb).
    unfold bind at 1, lift at 1. rewrite (get_prop_field _ _ Hb).
    load_in w0. rewrite Hs. rewrite Hw in *. clear Hs Hw Eload.
    subst w0. cbn [file can_read can_write uuids next_uuid] in *.
    unfold bind at 1, lift at 1.
    destruct (stored w) as [| | | | |l|]; simpl; try done_run.
    match goal with |- context [saveTodoToFile (Arr ?l')] =>
      destruct (save_eq l' w1) as (w2 & E2 & F2 & ? & ? & ? & ? & ?) end.
    unfold bind. rewrite E2.
    replace (can_write w1) with (can_write w) in * by (symmetry; assumption).
    destruct (can_write w) eqn:Ecw; simpl; done_run.
Qed.

Lemma put_run m p b id w :
  exists r w', run put_todo (mkRequest m p b [("id", id)]) w = (r, w')
    /\ put_outcome id b w r w' /\ same_env w w'.
Proof.
  unfold run, put_todo, put_outcome. load_in w. clear Eload.
  unfold param. simpl. unfold bind at 1, lift at 1.
  destruct (Array.find (stored w) (has_id id)) as [[[i todo]|]|e] eqn:Ef;
    try done_run.
  destruct (find_array _ _ _ Ef) as [l El]. rewrite El. simpl.
  destruct (nullish b) eqn:Hb.
  - unfold bind at 1. rewrite (get_prop_nullish _ _ Hb). unfold lift.
    done_run.
  - unfold bind at 1, lift at 1. rewrite (get_prop_field _ _ Hb).
    unfold bind at 1, lift at 1. rewrite (get_prop_field _ _ Hb).
    unfold bind at 1, lift at 1. rewrite (get_prop_field _ _ Hb).
    fold (updated todo b).
    match goal with |- context [saveTodoToFile (Arr ?l')] =>
      destruct (save_eq l' w1) as (w2 & E2 & F2 & ? & ? & ? & ? & ?) end.
    unfold bind. rewrite E2.
    replace (can_write w1) with (can_write w) in * by (symmetry; assumption).
    destruct (can_write w) eqn:Ecw; simpl; done_run.
Qed.

Lemma delete_run m p b id w :
  exists r w', run delete_todo (mkRequest m p b [("id", id)]) w = (r, w')
    /\ delete_outcome id w r w' /\ same_env w w'.
Proof.
  unfold run, delete_todo, delete_outcome. load_in w. clear Eload.
  unfold param. simpl. unfold bind at 1, lift at 1.
  destruct (Array.find (stored w) (has_id id)) as [[[i todo]|]|e] eqn:Ef;
    try done_run.
  destruct (find_array _ _ _ Ef) as [l El]. rewrite El. simpl.
  match goal with |- context [saveTodoToFile (Arr ?l')] =>
    destruct (save_eq l' w1) as (w2 & E2 & F2 & ? & ? & ? & ? & ?) end.
  unfold bind. rewrite E2.
  replace (can_write w1) with (can_write w) in * by (symmetry; assumption).
  destruct (can_write w) eqn:Ecw; simpl; done_run.
Qed.

(** ** Reading back what was written *)

Lemma reload w v :
  file w = Some (JSON.json_text v) -> wf v = true ->
  stored w = if can_read w then strip v else Arr [].
Proof.
  intros Hf Hwf. rewrite stored_eq, Hf, (parse_json_text v Hwf). reflexivity.
Qed.

Lemma stored_readable w x l : stored w = Arr (x :: l) -> can_read w = true.
Proof.
  rewrite stored_eq. destruct (file w); [|discriminate].
  destruct (can_read w); [reflexivity|discriminate].
Qed.

Lemma strip_list l : forallb is_json l = true -> map strip l = l.
Proof.
  intros H. rewrite <- (map_id l) at 2. apply map_ext_in.
  intros x Hx. apply strip_json. rewrite forallb_forall in H. auto.
Qed.

Lemma stored_list w l : stored w = Arr l -> forallb is_json l = true.
Proof. intros E. pose proof (stored_json w) as H. now rewrite E in H. Qed.

(** ** Fields *)

Lemma lookup_json fs k v :
  forallb (fun kv => is_json (snd kv)) fs = true ->
  lookup k fs = Some v -> is_json v = true.
Proof.
  induction fs as [|[k' v'] r IH]; simpl; [discriminate|].
  intros H. apply andb_prop in H as [H1 H2].
  destruct (k' =? k); [intros [= <-]; assumption|auto].
Qed.

Lemma field_json b k :
  is_json b = true -> field b k = Undefined \/ is_json (field b k) = true.
Proof.
  destruct b; simpl; auto. intros H. apply andb_prop in H as [_ H].
  unfold field. simpl. destruct (lookup k fields) eqn:E; [|auto].
  right. eapply lookup_json; eassumption.
Qed.

Lemma field_wf b k : is_json b = true -> wf (field b k) = true.
Proof.
  intros H. destruct (field_json b k H) as [->|J]; [reflexivity|].
  now apply is_json_wf.
Qed.

Lemma or_else_json c :
  c = Undefined \/ is_json c = true -> is_json (or_else c (Bool false)) = true.
Proof.
  unfold or_else. intros [->|H]; [reflexivity|].
  destruct (truthy c); [assumption|reflexivity].
Qed.

Lemma lookup_assign_same k v fs : lookup k (assign k v fs) = Some v.
Proof.
  induction fs as [|[k' v'] r IH]; simpl.
  - now rewrite String.eqb_refl.
  - destruct (k' =? k) eqn:E; simpl; rewrite E; auto.
Qed.

Lemma lookup_assign_other k k' v fs :
  k' <> k -> lookup k (assign k' v fs) = lookup k fs.
Proof.
  intros N. induction fs as [|[k0 v0] r IH]; simpl.
  - apply String.eqb_neq in N. now rewrite N.
  - destruct (String.eqb_spec k0 k') as [->|N0]; simpl.
    + apply String.eqb_neq in N. now rewrite N.
    + destruct (k0 =? k); auto.
Qed.

(** A property read after the value went through JSON. *)
Lemma lookup_kept k fs :
  NoDup (keys fs) ->
  lookup k (map strip_member (kept fs)) =
  match lookup k fs with
  | Some Undefined | None => None
  | Some v => Some (strip v)
  end.
Proof.
  unfold keys. induction fs as [|[k' v'] r IH]; simpl; [reflexivity|].
  intros H. inversion H as [|? ? Hk Hr]; subst. specialize (IH Hr).
  destruct (String.eqb_spec k' k) as [->|N].
  - assert (L : lookup k r = None).
    { clear -Hk. induction r as [|[k0 v0] r IH]; simpl; [reflexivity|].
      simpl in Hk. destruct (String.eqb_spec k0 k); [tauto|]. apply IH. tauto. }
    destruct v'; simpl; rewrite ?String.eqb_refl; try reflexivity.
    rewrite IH, L. reflexivity.
  - apply String.eqb_neq in N.
    destruct v'; simpl; rewrite ?N; assumption.
Qed.

Lemma field_strip_obj k fs :
  NoDup (keys fs) -> field (strip (Obj fs)) k = reread (field (Obj fs) k).
Proof.
  intros H. rewrite strip_Obj. unfold field. simpl. rewrite (lookup_kept k fs H).
  destruct (lookup k fs) as [[]|]; reflexivity.
Qed.

Lemma reread_json v : v = Undefined \/ is_json v = true -> reread v = v.
Proof.
  intros [->|H]; [reflexivity|]. unfold reread.
  rewrite (strip_json v H). now destruct v.
Qed.

(** ** Records and their identifiers *)

Lemma has_id_true id t :
  has_id id t = Ok true ->
  exists fs, t = Obj fs /\ lookup "id" fs = Some (Str id).
Proof.
  unfold has_id. destruct t as [| | | | | |fs]; simpl; try discriminate.
  destruct (lookup "id" fs) as [[]|] eqn:E; simpl; try discriminate.
  intros [= H]. apply String.eqb_eq in H. subst. eauto.
Qed.

Lemma has_id_record id t :
  is_record t = true -> has_id id t = Ok (strict_eq_str (id_of t) id).
Proof. destruct t; simpl; try discriminate. reflexivity. Qed.

Lemma record_id t : is_record t = true -> exists s, id_of t = Str s.
Proof.
  destruct t; simpl; try discriminate. unfold id_of, field. simpl.
  destruct (lookup "id" fields) as [[]|]; try discriminate. eauto.
Qed.

Lemma has_id_iff id t :
  is_record t = true -> (has_id id t = Ok true <-> id_of t = Str id).
Proof.
  intros H. rewrite (has_id_record _ _ H).
  destruct (record_id t H) as [s ->]. simpl. split.
  - intros [= E]. apply String.eqb_eq in E. now subst.
  - intros [= ->]. now rewrite String.eqb_refl.
Qed.

(** ** [find] *)

Lemma find_from_some pred i l j t :
  Array.find_from pred i l = Ok (Some (j, t)) ->
  exists k, j = i + k /\ nth_error l k = Some t /\ pred t = Ok true
            /\ forall k' x, k' < k -> nth_error l k' = Some x -> pred x = Ok false.
Proof.
  revert i. induction l as [|x r IH]; simpl; intros i; [discriminate|].
  destruct (pred x) as [[]|e] eqn:E; try discriminate.
  - intros [= <- <-]. exists 0.
    split; [lia|]. split; [reflexivity|]. split; [assumption|].
    intros k' y Hk. lia.
  - intros H. destruct (IH _ H) as (k & -> & Hn & Hp & Hb).
    exists (S k).
    split; [lia|]. split; [assumption|]. split; [assumption|].
    intros [|k'] y Hk; simpl.
    + now intros [= <-].
    + apply Hb. lia.
Qed.

Lemma find_from_none id i l :
  forallb is_record l = true -> ~ In (Str id) (ids l) ->
  Array.find_from (has_id id) i l = Ok None.
Proof.
  revert i. induction l as [|x r IH]; simpl; intros i H N; [reflexivity|].
  apply andb_prop in H as [Hx Hr].
  rewrite (has_id_record _ _ Hx).
  destruct (strict_eq_str (id_of x) id) eqn:E.
  - exfalso. apply N. left. destruct (id_of x); simpl in E; try discriminate.
    apply String.eqb_eq in E. now subst.
  - apply IH; tauto.
Qed.



(** What [find] returns is an object, so [!todo] holds only when
    nothing was found. *)
Lemma found_is_truthy id i l j t :
  Array.find_from (has_id id) i l = Ok (Some (j, t)) -> truthy t = true.
Proof.
  intros H. destruct (find_from_some _ _ _ _ _ H) as (k & _ & _ & Hp & _).
  destruct (has_id_true _ _ Hp) as (fs & -> & _). reflexivity.
Qed.

(** ** Lists with one element replaced or removed *)

Lemma map_replace (f : value -> value) i x l :
  map f (Array.replace i x l) = Array.replace i (f x) (map f l).
Proof.
  revert i. induction l as [|y r IH]; intros [|i]; simpl; try reflexivity.
  now rewrite IH.
Qed.

Lemma length_replace i x l : List.length (Array.replace i x l) = List.length l.
Proof.
  revert i. induction l as [|y r IH]; intros [|i]; simpl; auto.
Qed.

Lemma nth_replace_same i x l t :
  nth_error l i = Some t -> nth_error (Array.replace i x l) i = Some x.
Proof.
  revert i. induction l as [|y r IH]; intros [|i]; simpl; try discriminate; auto.
Qed.

Lemma nth_replace_other i j x l :
  j <> i -> nth_error (Array.replace i x l) j = nth_error l j.
Proof.
  revert i j. induction l as [|y r IH]; intros [|i] [|j] N; simpl;
    try reflexivity; try lia. apply IH. lia.
Qed.

Lemma replace_ids i x l t :
  nth_error l i = Some t -> id_of x = id_of t ->
  ids (Array.replace i x l) = ids l.
Proof.
  unfold ids. revert i. induction l as [|y r IH]; intros [|i]; simpl;
    try discriminate.
  - intros [= ->] E. now rewrite E.
  - intros H E. now rewrite (IH _ H E).
Qed.

Lemma forallb_replace (p : value -> bool) i x l :
  p x = true -> forallb p l = true -> forallb p (Array.replace i x l) = true.
Proof.
  intros Hx. revert i. induction l as [|y r IH]; intros [|i]; simpl; auto;
    intros H; apply andb_prop in H as [H1 H2]; rewrite ?Hx, ?H1, ?H2, ?IH; auto.
Qed.

Lemma map_remove (f : value -> value) i l :
  map f (Array.remove i l) = Array.remove i (map f l).
Proof.
  revert i. induction l as [|y r IH]; intros [|i]; simpl; try reflexivity.
  now rewrite IH.
Qed.

Lemma In_remove i l x : In x (Array.remove i l) -> In x l.
Proof.
  revert i. induction l as [|y r IH]; intros [|i]; simpl; auto.
  intros [->|H]; eauto.
Qed.

Lemma forallb_remove (p : value -> bool) i l :
  forallb p l = true -> forallb p (Array.remove i l) = true.
Proof.
  rewrite !forallb_forall. intros H x Hx. apply H. eapply In_remove; eauto.
Qed.

Lemma ids_remove i l : ids (Array.remove i l) = Array.remove i (ids l).
Proof. apply map_remove. Qed.

Lemma NoDup_remove_at i (l : list value) : NoDup l -> NoDup (Array.remove i l).
Proof.
  revert i. induction l as [|y r IH]; intros [|i] H; simpl; auto;
    inversion H; subst; auto.
  constructor; auto. intros Hin. apply In_remove in Hin. contradiction.
Qed.

Lemma removed_absent i (l : list value) x :
  NoDup l -> nth_error l i = Some x -> ~ In x (Array.remove i l).
Proof.
  revert i. induction l as [|y r IH]; intros [|i] H; simpl; try discriminate;
    inversion H; subst.
  - now intros [= ->].
  - intros Hn [->|Hin].
    + apply nth_error_In in Hn. contradiction.
    + eapply IH; eauto.
Qed.

(** ** The record that is created *)

Lemma completed_json b :
  is_json b = true -> is_json (or_else (field b "completed") (Bool false)) = true.
Proof. intros H. apply or_else_json. now apply field_json. Qed.

Lemma wf_new_todo id b : is_json b = true -> wf (new_todo id b) = true.
Proof.
  intros H. unfold new_todo. simpl.
  rewrite !(field_wf b _ H), (is_json_wf _ (completed_json b H)). reflexivity.
Qed.



Lemma new_todo_record id b : is_record (strip (new_todo id b)) = true.
Proof. reflexivity. Qed.

Lemma new_todo_id id b : id_of (strip (new_todo id b)) = Str id.
Proof. reflexivity. Qed.


(** ** The record that is updated *)

Lemma updated_Obj fs b : updated (Obj fs) b = Obj (updated_fields fs b).
Proof. reflexivity. Qed.

Lemma updated_keys fs b : NoDup (keys fs) -> NoDup (keys (updated_fields fs b)).
Proof. intros H. unfold updated_fields. now repeat apply assign_NoDup. Qed.

Lemma wf_updated fs b :
  is_json (Obj fs) = true -> is_json b = true -> wf (updated (Obj fs) b) = true.
Proof.
  intros Ht Hb. rewrite updated_Obj. simpl in Ht |- *.
  apply andb_prop in Ht as [Hk Hv]. apply andb_true_intro. split.
  - apply distinct_NoDup, updated_keys. now apply distinct_NoDup.
  - unfold updated_fields.
    apply (assign_forallb wf); [apply is_json_wf, completed_json; assumption|].
    apply (assign_forallb wf); [now apply field_wf|].
    apply (assign_forallb wf); [now apply field_wf|].
    rewrite forallb_forall in *. intros kv Hin. apply is_json_wf. auto.
Qed.


Lemma updated_other fs b k :
  k <> "title" -> k <> "description" -> k <> "completed" ->
  field (updated (Obj fs) b) k = field (Obj fs) k.
Proof.
  intros N1 N2 N3. rewrite updated_Obj. unfold field, updated_fields. simpl.
  rewrite !lookup_assign_other by congruence. reflexivity.
Qed.

Lemma json_keys fs : is_json (Obj fs) = true -> NoDup (keys fs).
Proof. simpl. intros H. apply andb_prop in H as [H _]. now apply distinct_NoDup. Qed.


Lemma updated_other_stored fs b k :
  is_json (Obj fs) = true ->
  k <> "title" -> k <> "description" -> k <> "completed" ->
  field (strip (updated (Obj fs) b)) k = field (Obj fs) k.
Proof.
  intros Ht N1 N2 N3. pose proof (updated_other fs b k N1 N2 N3) as E.
  rewrite updated_Obj in *.
  rewrite (field_strip_obj _ _ (updated_keys fs b (json_keys fs Ht))), E.
  apply reread_json. now apply field_json.
Qed.

Lemma updated_record fs b :
  is_json (Obj fs) = true -> is_record (Obj fs) = true ->
  is_record (strip (updated (Obj fs) b)) = true
  /\ id_of (strip (updated (Obj fs) b)) = id_of (Obj fs).
Proof.
  intros Ht Hr.
  assert (E : id_of (strip (updated (Obj fs) b)) = id_of (Obj fs)).
  { apply updated_other_stored; [assumption|discriminate..]. }
  split; [|assumption].
  destruct (record_id _ Hr) as [s Hs]. rewrite Hs in E.
  rewrite updated_Obj, strip_Obj in *. unfold id_of, field in E. simpl in E |- *.
  destruct (lookup "id" _) as [[]|]; try discriminate. reflexivity.
Qed.

(** ** Requests that succeed *)

Lemma json_list_wf l : forallb is_json l = true -> forallb wf l = true.
Proof.
  rewrite !forallb_forall. intros H x Hx. apply is_json_wf. auto.
Qed.

Lemma find_from_json id l i t :
  forallb is_json l = true ->
  Array.find_from (has_id id) 0 l = Ok (Some (i, t)) ->
  exists fs, t = Obj fs /\ is_json (Obj fs) = true /\ nth_error l i = Some t
             /\ lookup "id" fs = Some (Str id).
Proof.
  intros Hl Hf. destruct (find_from_some _ _ _ _ _ Hf) as (k & -> & Hn & Hp & _).
  destruct (has_id_true _ _ Hp) as (fs & -> & Hid).
  exists fs. repeat split; auto.
  rewrite forallb_forall in Hl. apply Hl. eapply nth_error_In; eauto.
Qed.

Lemma post_created b w r w' :
  post_outcome b w r w' -> same_env w w' -> status r = 201 ->
  is_json b = true ->
  exists l,
    stored w = Arr l /\ can_write w = true
    /\ r = mkResponse 201 (Json (Obj [("id", Str (uuids w (next_uuid w)))]))
    /\ stored w' = if can_read w
                   then Arr (l ++ [strip (new_todo (uuids w (next_uuid w)) b)])
                   else Arr [].
Proof.
  intros (_ & Ho) (Hr & _ & _) Hs Hb. destruct (nullish b).
  - destruct Ho as [-> _]. discriminate.
  - destruct (stored w) as [| | | | |l|] eqn:El;
      try (destruct Ho as [-> _]; discriminate).
    destruct Ho as (_ & Ho). destruct (can_write w).
    + destruct Ho as [-> Hf]. exists l. repeat split.
      pose proof (stored_list _ _ El) as Hl.
      rewrite (reload _ _ Hf), Hr.
      * destruct (can_read w); [|reflexivity]. simpl.
        now rewrite map_app, (strip_list _ Hl).
      * change (forallb wf (l ++ [new_todo (uuids w (next_uuid w)) b]) = true).
        rewrite forallb_app, (json_list_wf _ Hl). cbn [forallb andb].
        now rewrite (wf_new_todo _ _ Hb).
    + destruct Ho as [-> _]. discriminate.
Qed.

Lemma put_updated id b w r w' :
  put_outcome id b w r w' -> same_env w w' -> status r = 200 ->
  is_json b = true ->
  exists l i fs,
    stored w = Arr l /\ can_write w = true
    /\ Array.find_from (has_id id) 0 l = Ok (Some (i, Obj fs))
    /\ is_json (Obj fs) = true /\ nth_error l i = Some (Obj fs)
    /\ r = mkResponse 200 (Json (updated (Obj fs) b))
    /\ stored w' = Arr (Array.replace i (strip (updated (Obj fs) b)) l).
Proof.
  intros (_ & Ho) (Hr & _ & _) Hs Hb.
  destruct (Array.find (stored w) (has_id id)) as [[[i todo]|]|e] eqn:Ef;
    try (destruct Ho as [-> _]; discriminate).
  destruct (find_array _ _ _ Ef) as [l El]. rewrite El in *. simpl in Ef.
  pose proof (stored_list _ _ El) as Hl.
  destruct (find_from_json _ _ _ _ Hl Ef) as (fs & -> & Hj & Hn & _).
  destruct (nullish b); [destruct Ho as [-> _]; discriminate|].
  destruct Ho as (_ & Ho). destruct (can_write w);
    [|destruct Ho as [-> _]; discriminate].
  destruct Ho as [-> Hf]. exists l, i, fs. repeat split; auto.
  simpl in Hf. rewrite (reload _ _ Hf), Hr.
  - assert (Hc : can_read w = true).
    { destruct l as [|x l']; [destruct i; discriminate|].
      eapply stored_readable; eauto. }
    rewrite Hc. simpl. now rewrite map_replace, (strip_list _ Hl).
  - simpl. apply forallb_replace; [now apply wf_updated|now apply json_list_wf].
Qed.

Lemma delete_removed id w r w' :
  delete_outcome id w r w' -> same_env w w' -> status r = 200 ->
  exists l i fs,
    stored w = Arr l /\ can_write w = true
    /\ Array.find_from (has_id id) 0 l = Ok (Some (i, Obj fs))
    /\ nth_error l i = Some (Obj fs)
    /\ r = mkResponse 200 (Json (message "Todo deleted"))
    /\ stored w' = Arr (Array.remove i l).
Proof.
  intros (_ & Ho) (Hr & _ & _) Hs.
  destruct (Array.find (stored w) (has_id id)) as [[[i todo]|]|e] eqn:Ef;
    try (destruct Ho as [-> _]; discriminate).
  destruct (find_array _ _ _ Ef) as [l El]. rewrite El in *. simpl in Ef.
  pose proof (stored_list _ _ El) as Hl.
  destruct (find_from_json _ _ _ _ Hl Ef) as (fs & -> & Hj & Hn & _).
  destruct Ho as (_ & Ho). destruct (can_write w);
    [|destruct Ho as [-> _]; discriminate].
  destruct Ho as [-> Hf]. exists l, i, fs. repeat split; auto.
  simpl in Hf. rewrite (reload _ _ Hf), Hr.
  - assert (Hc : can_read w = true).
    { destruct l as [|x l']; [destruct i; discriminate|].
      eapply stored_readable; eauto. }
    rewrite Hc. simpl. now rewrite map_remove, (strip_list _ Hl).
  - simpl. apply forallb_remove. now apply json_list_wf.
Qed.

(** ** The application as a whole *)

Lemma serve_eq m p b ps0 w :
  serve (mkRequest m p b ps0) w =
  match m with
  | GET | HEAD =>
      match match_path "/todos" p with
      | Some ps => run get_todos (mkRequest m p b ps) w
      | None =>
          match match_path "/todos/:id" p with
          | Some ps => run get_todo (mkRequest m p b ps) w
          | None => (mkResponse 404 Empty, w)
          end
      end
  | POST =>
      match match_path "/todos" p with
      | Some ps => run post_todo (mkRequest m p b ps) w
      | None => (mkResponse 404 Empty, w)
      end
  | PUT =>
      match match_path "/todos/:id" p with
      | Some ps => run put_todo (mkRequest m p b ps) w
      | None => (mkResponse 404 Empty, w)
      end
  | DELETE =>
      match match_path "/todos/:id" p with
      | Some ps => run delete_todo (mkRequest m p b ps) w
      | None => (mkResponse 404 Empty, w)
      end
  | _ => (mkResponse 404 Empty, w)
  end.
Proof.
  unfold serve, app, todo_routes, dispatch, matches, handles_method.
  destruct m; simpl;
    destruct (match_path "/todos" p); try reflexivity;
    destruct (match_path "/todos/:id" p); reflexivity.
Qed.

Lemma untouched_stored w w' :
  untouched w w' -> same_env w w' -> stored w' = stored w.
Proof. intros [Hf _] (Hr & _ & _). now apply stored_same. Qed.

(** A request that fails writes nothing ([404]) or says that saving
    failed. *)
Lemma serve_frame m p b ps0 w r w' :
  serve (mkRequest m p b ps0) w = (r, w') ->
  same_env w w'
  /\ (status r = 404 -> untouched w w')
  /\ (writes w' <> writes w -> can_write w = false -> r = failed_save)
  /\ (writes w' = writes w \/ writes w' = S (writes w)).
Proof.
  rewrite serve_eq. intros H.
  assert (Hfall : (mkResponse 404 Empty, w) = (r, w') ->
            same_env w w'
            /\ (status r = 404 -> untouched w w')
            /\ (writes w' <> writes w -> can_write w = false -> r = failed_save)
            /\ (writes w' = writes w \/ writes w' = S (writes w))).
  { intros [= <- <-]. repeat split; auto. intros N. now destruct N. }
  assert (Hget : forall ps,
            run get_todos (mkRequest m p b ps) w = (r, w') ->
            same_env w w'
            /\ (status r = 404 -> untouched w w')
            /\ (writes w' <> writes w -> can_write w = false -> r = failed_save)
            /\ (writes w' = writes w \/ writes w' = S (writes w))).
  { intros ps E.
    destruct (get_todos_run m p b ps w) as (w2 & E2 & He & Hu & Hn).
    rewrite E2 in E. injection E as <- <-. repeat split; try apply He; try apply Hu.
    - destruct Hu as [_ Hu]. congruence.
    - left. apply Hu. }
  assert (Hitem : forall ps, match_path "/todos/:id" p = Some ps ->
            run get_todo (mkRequest m p b ps) w = (r, w') ->
            same_env w w'
            /\ (status r = 404 -> untouched w w')
            /\ (writes w' <> writes w -> can_write w = false -> r = failed_save)
            /\ (writes w' = writes w \/ writes w' = S (writes w))).
  { intros ps Hp E. destruct (item_path _ _ Hp) as (_ & id & ->).
    destruct (get_todo_run m p b id w) as (r2 & w2 & E2 & Ho & He & Hu & Hn).
    rewrite E2 in E. injection E as <- <-. repeat split; try apply He; try apply Hu.
    - destruct Hu as [_ Hu]. congruence.
    - left. apply Hu. }
  destruct m; auto.
  - destruct (match_path "/todos" p) eqn:E1; [eauto|].
    destruct (match_path "/todos/:id" p) eqn:E2; eauto.
  - destruct (match_path "/todos" p) eqn:E1; [eauto|].
    destruct (match_path "/todos/:id" p) eqn:E2; eauto.
  - destruct (match_path "/todos" p) eqn:E1; [|auto].
    destruct (post_run POST p b l w) as (r2 & w2 & E2 & [Hn Ho] & He).
    rewrite E2 in H. injection H as <- <-. split; [assumption|].
    destruct (nullish b).
    { destruct Ho as [-> [Hf Hw]]. repeat split; auto; try discriminate.
      congruence. }
    destruct (stored w);
      try (destruct Ho as [-> [Hf Hw]]; repeat split; auto; try discriminate;
           congruence).
    destruct Ho as [Hw Ho]. destruct (can_write w);
      destruct Ho as [-> Hf]; repeat split; auto; discriminate.
  - destruct (match_path "/todos/:id" p) eqn:E1; [|auto].
    destruct (item_path _ _ E1) as (_ & id & ->).
    destruct (put_run PUT p b id w) as (r2 & w2 & E2 & [Hn Ho] & He).
    rewrite E2 in H. injection H as <- <-. split; [assumption|].
    destruct (Array.find (stored w) (has_id id)) as [[[i todo]|]|e];
      try (destruct Ho as [-> [Hf Hw]]; repeat split; auto; try discriminate;
           congruence).
    destruct (nullish b).
    { destruct Ho as [-> [Hf Hw]]. repeat split; auto; try discriminate.
      congruence. }
    destruct Ho as [Hw Ho]. destruct (can_write w);
      destruct Ho as [-> Hf]; repeat split; auto; discriminate.
  - destruct (match_path "/todos/:id" p) eqn:E1; [|auto].
    destruct (item_path _ _ E1) as (_ & id & ->).
    destruct (delete_run DELETE p b id w) as (r2 & w2 & E2 & [Hn Ho] & He).
    rewrite E2 in H. injection H as <- <-. split; [assumption|].
    destruct (Array.find (stored w) (has_id id)) as [[[i todo]|]|e];
      try (destruct Ho as [-> [Hf Hw]]; repeat split; auto; try discriminate;
           congruence).
    destruct Ho as [Hw Ho]. destruct (can_write w);
      destruct Ho as [-> Hf]; repeat split; auto; discriminate.
Qed.

Lemma quiet b w w' r :
  untouched w w' -> same_env w w' -> next_uuid w <= next_uuid w' ->
  status r <> 201 -> effect b w w' r.
Proof. intros Hu He Hn Hs. apply Quiet; auto. now apply untouched_stored. Qed.

Lemma serve_effect m p b ps0 w r w' :
  serve (mkRequest m p b ps0) w = (r, w') -> is_json b = true ->
  effect b w w' r.
Proof.
  rewrite serve_eq. intros H Hb.
  assert (Hfall : (mkResponse 404 Empty, w) = (r, w') -> effect b w w' r).
  { intros [= <- <-]. apply Quiet; auto. discriminate. }
  assert (Hget : forall ps,
            run get_todos (mkRequest m p b ps) w = (r, w') -> effect b w w' r).
  { intros ps E.
    destruct (get_todos_run m p b ps w) as (w2 & E2 & He & Hu & Hn).
    rewrite E2 in E. injection E as <- <-.
    apply quiet; auto; try lia; discriminate. }
  assert (Hitem : forall ps, match_path "/todos/:id" p = Some ps ->
            run get_todo (mkRequest m p b ps) w = (r, w') -> effect b w w' r).
  { intros ps Hp E. destruct (item_path _ _ Hp) as (_ & id & ->).
    destruct (get_todo_run m p b id w) as (r2 & w2 & E2 & Ho & He & Hu & Hn).
    rewrite E2 in E. injection E as <- <-. unfold get_outcome in Ho.
    apply quiet; auto; try lia.
    destruct (Array.find _ _) as [[[]|]|]; subst; discriminate. }
  destruct m; auto.
  - destruct (match_path "/todos" p) eqn:E1; [eauto|].
    destruct (match_path "/todos/:id" p) eqn:E2; eauto.
  - destruct (match_path "/todos" p) eqn:E1; [eauto|].
    destruct (match_path "/todos/:id" p) eqn:E2; eauto.
  - destruct (match_path "/todos" p) eqn:E1; [|auto].
    destruct (post_run POST p b l w) as (r2 & w2 & E2 & Ho & He).
    rewrite E2 in H. injection H as <- <-.
    destruct (Nat.eq_dec (status r2) 201) as [Hs|Hs].
    + destruct (post_created _ _ _ _ Ho He Hs Hb) as (l0 & El & Hw & -> & Es).
      destruct Ho as [Hn _]. eapply Created; eauto.
    + destruct Ho as [Hn Ho]. apply Quiet; auto; try lia.
      destruct (nullish b);
        [destruct Ho as [_ Hu]; now apply untouched_stored|].
      destruct (stored w) eqn:El;
        try (destruct Ho as [_ Hu]; rewrite <- El; now apply untouched_stored).
      destruct Ho as [_ Ho]. destruct (can_write w).
      * destruct Ho as [-> _]. now contradiction Hs.
      * destruct Ho as [_ Hf]. rewrite <- El. apply stored_same; auto.
        apply He.
  - destruct (match_path "/todos/:id" p) eqn:E1; [|auto].
    destruct (item_path _ _ E1) as (_ & id & ->).
    destruct (put_run PUT p b id w) as (r2 & w2 & E2 & Ho & He).
    rewrite E2 in H. injection H as <- <-.
    destruct (Nat.eq_dec (status r2) 200) as [Hs|Hs].
    + destruct (put_updated _ _ _ _ _ Ho He Hs Hb)
        as (l0 & i & fs & El & Hw & Hf & Hj & Hnth & -> & Es).
      destruct Ho as [Hn _]. eapply Updated; eauto.
    + destruct Ho as [Hn Ho].
      destruct (Array.find (stored w) (has_id id)) as [[[i todo]|]|e];
        try (destruct Ho as [-> Hu]; apply quiet; auto; try lia; discriminate).
      destruct (nullish b);
        [destruct Ho as [-> Hu]; apply quiet; auto; try lia; discriminate|].
      destruct Ho as [Hwr Ho]. destruct (can_write w) eqn:Hcw.
      { destruct Ho as [-> _]. now contradiction Hs. }
      destruct Ho as [-> Hf]. apply Quiet; auto; try lia; try discriminate.
      apply stored_same; auto. apply He.
  - destruct (match_path "/todos/:id" p) eqn:E1; [|auto].
    destruct (item_path _ _ E1) as (_ & id & ->).
    destruct (delete_run DELETE p b id w) as (r2 & w2 & E2 & Ho & He).
    rewrite E2 in H. injection H as <- <-.
    destruct (Nat.eq_dec (status r2) 200) as [Hs|Hs].
    + destruct (delete_removed _ _ _ _ Ho He Hs)
        as (l0 & i & fs & El & Hw & Hf & Hnth & -> & Es).
      destruct Ho as [Hn _]. eapply Deleted; eauto.
      apply nth_error_Some. congruence.
    + destruct Ho as [Hn Ho].
      destruct (Array.find (stored w) (has_id id)) as [[[i todo]|]|e];
        try (destruct Ho as [-> Hu]; apply quiet; auto; try lia; discriminate).
      destruct Ho as [Hwr Ho]. destruct (can_write w) eqn:Hcw.
      { destruct Ho as [-> _]. now contradiction Hs. }
      destruct Ho as [-> Hf]. apply Quiet; auto; try lia; try discriminate.
      apply stored_same; auto. apply He.
Qed.

(** Whatever the records, the list that is loaded is the list that
    was saved as JSON has it: without the properties whose value is
    [undefined]. *)
Lemma saved_then_loaded (todos : list value) (w w' : World) :
  wf (Arr todos) = true ->
  saveTodoToFile (Arr todos) w = (Ok true, w') ->
  can_read w' = true ->
  exists w'', getTodosFromFile w' = (Ok (Arr (map strip todos)), w'').
Proof.
  intros Hwf Hs Hr.
  destruct (save_eq todos w) as (w1 & E & Hf & _).
  rewrite E in Hs. injection Hs as Hc <-. rewrite Hc in Hf.
  destruct (load_eq w1) as (w2 & E2 & _). exists w2. rewrite E2.
  rewrite (reload _ _ Hf Hwf), Hr. reflexivity.
Qed.


(** No route on todos is registered for PATCH or OPTIONS. *)
Lemma other_methods_unknown (m : Method) (p : string) (b : value) :
  m = PATCH \/ m = OPTIONS -> is_todo_operation (request m p b) = false.
Proof. intros [->| ->]; reflexivity. Qed.

(** ** Runs of requests *)

Lemma ids_app l x : ids (l ++ [x])%list = (ids l ++ [id_of x])%list.
Proof. unfold ids. now rewrite map_app. Qed.

(** One request keeps the invariant, and a creation returns the next
    identifier of [uuid.v4]. *)
Lemma step_invariant (req : Request) (w : World) (r : Response) (w' : World) :
  serve req w = (r, w') -> is_json (body req) = true ->
  consistent w -> fresh_ids w -> never_repeats w ->
  consistent w' /\ fresh_ids w' /\ never_repeats w'
  /\ uuids w' = uuids w /\ next_uuid w <= next_uuid w'
  /\ (status r = 201 ->
      payload r = Json (Obj [("id", Str (uuids w (next_uuid w)))])
      /\ next_uuid w' = S (next_uuid w)).
Proof.
  destruct req as [m p b ps]. simpl. intros E Hb Hc Hf Hn.
  destruct (serve_frame _ _ _ _ _ _ _ E) as ((_ & _ & Hu) & _).
  pose proof (serve_effect _ _ _ _ _ _ _ E Hb) as Heff.
  assert (Hn' : never_repeats w').
  { unfold never_repeats in *. now rewrite Hu. }
  destruct Hc as (l & El & Hrec & Hnd).
  destruct Heff as [Es Hle Hs | l0 El0 Hnx -> Es Hw
                   | l0 i fs El0 Hnx Hnth Hj -> Es Hw
                   | l0 i El0 Hnx Hi -> Es Hw].
  - (* nothing changed *)
    repeat split; auto; try contradiction.
    + exists l. rewrite Es. auto.
    + intros l1 n E1 Hge. rewrite Es in E1. rewrite Hu. apply (Hf l1 n E1). lia.
  - (* a record was appended *)
    rewrite El in El0. injection El0 as <-.
    set (id := uuids w (next_uuid w)) in *.
    assert (Hid : ~ In (Str id) (ids l)) by (apply (Hf l _ El); lia).
    pose proof (new_todo_id id b) as Hnt.
    pose proof (new_todo_record id b) as Hrt.
    set (nt := strip (new_todo id b)) in *. clearbody nt.
    repeat split; auto; try lia.
    + destruct (can_read w).
      * exists (l ++ [nt])%list. repeat split; auto.
        -- rewrite forallb_app, Hrec. simpl. now rewrite Hrt.
        -- rewrite ids_app, Hnt. apply NoDup_app; auto.
           ++ repeat constructor. simpl. tauto.
           ++ intros x Hx [<-|[]]. contradiction.
      * exists []. repeat split; auto. constructor.
    + intros l1 n E1 Hge. rewrite Es in E1. rewrite Hu.
      destruct (can_read w); injection E1 as <-; [|simpl; tauto].
      rewrite ids_app, Hnt. intros Hin.
      apply in_app_or in Hin as [Hin|[Hin|[]]].
      * apply (Hf l n El); [lia|assumption].
      * injection Hin as Hin. apply Hn in Hin. lia.
  - (* a record was replaced *)
    rewrite El in El0. injection El0 as <-.
    assert (Hr : is_record (Obj fs) = true).
    { rewrite forallb_forall in Hrec. apply Hrec. eapply nth_error_In; eauto. }
    destruct (updated_record fs b Hj Hr) as [Hr' Hid'].
    assert (Eids : ids (Array.replace i (strip (updated (Obj fs) b)) l) = ids l).
    { eapply replace_ids; eauto. }
    set (nu := strip (updated (Obj fs) b)) in *. clearbody nu.
    repeat split; auto; try lia; try discriminate.
    + eexists. split; [exact Es|]. split.
      * now apply forallb_replace.
      * now rewrite Eids.
    + intros l1 n E1 Hge. rewrite Es in E1. injection E1 as <-.
      rewrite Eids, Hu. apply (Hf l n El). lia.
  - (* a record was removed *)
    rewrite El in El0. injection El0 as <-.
    repeat split; auto; try lia; try discriminate.
    + eexists. split; [exact Es|]. split.
      * now apply forallb_remove.
      * rewrite ids_remove. now apply NoDup_remove_at.
    + intros l1 n E1 Hge. rewrite Es in E1. injection E1 as <-.
      rewrite ids_remove, Hu. intros Hin. apply In_remove in Hin.
      apply (Hf l n El); [lia|assumption].
Qed.

(** The invariant holds all along a run. *)
Lemma run_keeps_invariant (reqs : list Request) :
  forall w,
    consistent w -> fresh_ids w -> never_repeats w ->
    Forall (fun req => is_json (body req) = true) reqs ->
    consistent (serve_all reqs w) /\ fresh_ids (serve_all reqs w)
    /\ never_repeats (serve_all reqs w).
Proof.
  induction reqs as [|req rest IH]; intros w Hc Hf Hn Hj; simpl; [auto|].
  inversion Hj as [|? ? Hb Hrest]; subst.
  destruct (serve req w) as [r w'] eqn:E. simpl.
  destruct (step_invariant _ _ _ _ E Hb Hc Hf Hn) as (Hc' & Hf' & Hn' & _).
  now apply IH.
Qed.


(** ** The sample worlds *)

Lemma num_text_inj (a b : Z) : JSON.num_text a = JSON.num_text b -> a = b.
Proof.
  intros H. pose proof (parse_num_text a) as Ha. rewrite H, parse_num_text in Ha.
  congruence.
Qed.

Lemma world0_never_repeats : never_repeats world0.
Proof.
  intros i j H. simpl in H. injection H as H. apply num_text_inj in H. lia.
Qed.

Lemma world0_consistent : consistent world0.
Proof. exists []. repeat split. constructor. Qed.

Lemma world0_fresh : fresh_ids world0.
Proof. intros l n E _. vm_compute in E. injection E as <-. intros []. Qed.

Lemma world1_consistent : consistent world1.
Proof.
  eexists. split; [vm_compute; reflexivity|]. split; [reflexivity|].
  repeat constructor. intros [].
Qed.


(** ** What an answer tells about the file *)

Lemma post_statuses b w r w' :
  post_outcome b w r w' -> status r = 201 \/ status r = 500.
Proof.
  intros [_ H]. destruct (nullish b).
  - destruct H as [-> _]. now right.
  - destruct (stored w); try (destruct H as [-> _]; now right).
    destruct H as [_ H]. destruct (can_write w); destruct H as [-> _]; auto.
Qed.

Lemma put_statuses id b w r w' :
  put_outcome id b w r w' ->
  status r = 200 \/ status r = 404 \/ status r = 500.
Proof.
  intros [_ H]. destruct (Array.find (stored w) (has_id id)) as [[[i t]|]|e].
  - destruct (nullish b); [destruct H as [-> _]; auto|].
    destruct H as [_ H]. destruct (can_write w); destruct H as [-> _]; auto.
  - destruct H as [-> _]; auto.
  - destruct H as [-> _]; auto.
Qed.

Lemma delete_statuses id w r w' :
  delete_outcome id w r w' ->
  status r = 200 \/ status r = 404 \/ status r = 500.
Proof.
  intros [_ H]. destruct (Array.find (stored w) (has_id id)) as [[[i t]|]|e].
  - destruct H as [_ H]. destruct (can_write w); destruct H as [-> _]; auto.
  - destruct H as [-> _]; auto.
  - destruct H as [-> _]; auto.
Qed.

Lemma get_statuses id w r :
  get_outcome id w r -> status r = 200 \/ status r = 404 \/ status r = 500.
Proof.
  unfold get_outcome.
  destruct (Array.find (stored w) (has_id id)) as [[[i t]|]|e];
    intros ->; auto.
Qed.

Lemma post_failure b w r w' :
  post_outcome b w r w' -> status r <> 201 -> file w' = file w.
Proof.
  intros [_ H] Hs. destruct (nullish b).
  - now destruct H as [_ [H _]].
  - destruct (stored w); try (now destruct H as [_ [H _]]).
    destruct H as [_ H]. destruct (can_write w); destruct H as [-> H];
      [now contradiction Hs|assumption].
Qed.

Lemma put_failure id b w r w' :
  put_outcome id b w r w' -> status r <> 200 -> file w' = file w.
Proof.
  intros [_ H] Hs. destruct (Array.find (stored w) (has_id id)) as [[[i t]|]|e];
    try (now destruct H as [_ [H _]]).
  destruct (nullish b); [now destruct H as [_ [H _]]|].
  destruct H as [_ H]. destruct (can_write w); destruct H as [-> H];
    [now contradiction Hs|assumption].
Qed.

Lemma delete_failure id w r w' :
  delete_outcome id w r w' -> status r <> 200 -> file w' = file w.
Proof.
  intros [_ H] Hs. destruct (Array.find (stored w) (has_id id)) as [[[i t]|]|e];
    try (now destruct H as [_ [H _]]).
  destruct H as [_ H]. destruct (can_write w); destruct H as [-> H];
    [now contradiction Hs|assumption].
Qed.

(** The answer to a [GET] is read off the stored list. *)
Lemma get_outcome_stored id w w' r r' :
  stored w' = stored w -> get_outcome id w r -> get_outcome id w' r' -> r' = r.
Proof.
  unfold get_outcome. intros ->.
  destruct (Array.find (stored w) (has_id id)) as [[[i t]|]|e]; congruence.
Qed.

Lemma get_by_stored m p b b' w1 w2 :
  m = GET \/ m = HEAD -> stored w1 = stored w2 ->
  fst (serve (request m p b) w1) = fst (serve (request m p b') w2).
Proof.
  intros Hm Hst. unfold request. rewrite !serve_eq.
  destruct Hm as [-> | ->].
  - destruct (match_path "/todos" p) as [ps|].
    + destruct (get_todos_run GET p b ps w1) as (w1' & -> & _).
      destruct (get_todos_run GET p b' ps w2) as (w2' & -> & _).
      simpl. now rewrite Hst.
    + destruct (match_path "/todos/:id" p) as [ps|] eqn:Ei; [|reflexivity].
      destruct (item_path _ _ Ei) as (_ & id & ->).
      destruct (get_todo_run GET p b id w1) as (r1 & w1' & -> & H1 & _).
      destruct (get_todo_run GET p b' id w2) as (r2 & w2' & -> & H2 & _).
      simpl. eapply get_outcome_stored; eauto.
  - destruct (match_path "/todos" p) as [ps|].
    + destruct (get_todos_run HEAD p b ps w1) as (w1' & -> & _).
      destruct (get_todos_run HEAD p b' ps w2) as (w2' & -> & _).
      simpl. now rewrite Hst.
    + destruct (match_path "/todos/:id" p) as [ps|] eqn:Ei; [|reflexivity].
      destruct (item_path _ _ Ei) as (_ & id & ->).
      destruct (get_todo_run HEAD p b id w1) as (r1 & w1' & -> & H1 & _).
      destruct (get_todo_run HEAD p b' id w2) as (r2 & w2' & -> & H2 & _).
      simpl. eapply get_outcome_stored; eauto.
Qed.


(** ** [find] on a list, element by element *)

Lemma has_id_same id t : id_of t = Str id -> has_id id t = Ok true.
Proof.
  unfold id_of, field, has_id. destruct (get_prop t "id"); [|discriminate].
  intros ->. simpl. now rewrite String.eqb_refl.
Qed.

Lemma has_id_other id t :
  nullish t = false -> id_of t <> Str id -> has_id id t = Ok false.
Proof.
  intros Hn Hid. unfold has_id. rewrite (get_prop_field _ _ Hn).
  fold (id_of t). destruct (id_of t); simpl; try reflexivity.
  destruct (String.eqb_spec s id); [subst; now contradiction Hid|reflexivity].
Qed.

Lemma has_id_false id t : has_id id t = Ok false -> id_of t <> Str id.
Proof.
  intros H E. apply has_id_same in E. congruence.
Qed.

Lemma json_not_null t :
  is_json t = true -> t <> Null -> nullish t = false.
Proof. destruct t; simpl; congruence. Qed.

Lemma find_from_prefix pred pre rest : forall k,
  (forall t, In t pre -> pred t = Ok false) ->
  Array.find_from pred k (pre ++ rest)%list
  = Array.find_from pred (k + List.length pre) rest.
Proof.
  induction pre as [|x pre IH]; intros k H; simpl.
  - now rewrite Nat.add_0_r.
  - rewrite (H x) by now left. rewrite IH by (intros; apply H; now right).
    f_equal. lia.
Qed.

Lemma before_nth (l : list value) i x :
  nth_error l i = Some x ->
  exists pre rest, l = (pre ++ x :: rest)%list /\ List.length pre = i
    /\ forall t, In t pre -> exists j, j < i /\ nth_error l j = Some t.
Proof.
  intros H. destruct (nth_error_split _ _ H) as (pre & rest & -> & Hl).
  exists pre, rest. repeat split; auto.
  intros t Ht. destruct (In_nth_error _ _ Ht) as (j & Hj).
  assert (j < List.length pre) by (apply nth_error_Some; congruence).
  exists j. split; [lia|]. now rewrite nth_error_app1.
Qed.

(** The first element that the predicate accepts is the one found. *)
Lemma find_from_first pred l i x k :
  nth_error l i = Some x -> pred x = Ok true ->
  (forall j t, j < i -> nth_error l j = Some t -> pred t = Ok false) ->
  Array.find_from pred k l = Ok (Some (k + i, x)).
Proof.
  intros Hn Hx Hb. destruct (before_nth _ _ _ Hn) as (pre & rest & -> & Hl & Hpre).
  rewrite find_from_prefix.
  - simpl. now rewrite Hx, Hl.
  - intros t Ht. destruct (Hpre t Ht) as (j & Hj & Ej). eauto.
Qed.

(** An element on which the predicate throws, met first, ends the
    search. *)
Lemma find_from_throw pred l i x e k :
  nth_error l i = Some x -> pred x = Throw e ->
  (forall j t, j < i -> nth_error l j = Some t -> pred t = Ok false) ->
  Array.find_from pred k l = Throw e.
Proof.
  intros Hn Hx Hb. destruct (before_nth _ _ _ Hn) as (pre & rest & -> & Hl & Hpre).
  rewrite find_from_prefix.
  - simpl. now rewrite Hx.
  - intros t Ht. destruct (Hpre t Ht) as (j & Hj & Ej). eauto.
Qed.

Lemma find_from_nowhere pred l k :
  (forall t, In t l -> pred t = Ok false) ->
  Array.find_from pred k l = Ok None.
Proof.
  intros H. rewrite <- (app_nil_r l). now rewrite find_from_prefix.
Qed.

(** On records, the search does not throw. *)
Lemma find_from_records id l : forall k,
  forallb is_record l = true ->
  exists x, Array.find_from (has_id id) k l = Ok x.
Proof.
  induction l as [|t l IH]; intros k H; simpl; [eauto|].
  simpl in H. apply andb_true_iff in H as [Ht Hl].
  rewrite (has_id_record _ _ Ht).
  destruct (strict_eq_str (id_of t) id); eauto.
Qed.

(** ** Elements that the search passes over *)

Lemma found_shift pred l : forall k k',
  found (Array.find_from pred k l) = found (Array.find_from pred k' l).
Proof.
  induction l as [|t l IH]; intros k k'; simpl; [reflexivity|].
  destruct (pred t) as [[]|]; auto.
Qed.

Lemma found_remove pred x : pred x = Ok false ->
  forall l i k, nth_error l i = Some x ->
    found (Array.find_from pred k (Array.remove i l))
    = found (Array.find_from pred k l).
Proof.
  intros Hx. induction l as [|t l IH]; intros [|i] k H; simpl in *;
    try discriminate.
  - injection H as ->. rewrite Hx. apply found_shift.
  - destruct (pred t) as [[]|]; auto.
Qed.

Lemma found_replace pred x y : pred x = Ok false -> pred y = Ok false ->
  forall l i k, nth_error l i = Some x ->
    found (Array.find_from pred k (Array.replace i y l))
    = found (Array.find_from pred k l).
Proof.
  intros Hx Hy. induction l as [|t l IH]; intros [|i] k H; simpl in *;
    try discriminate.
  - injection H as ->. now rewrite Hx, Hy.
  - destruct (pred t) as [[]|]; auto.
Qed.

Lemma found_app pred y : pred y = Ok false ->
  forall l k,
    found (Array.find_from pred k (l ++ [y])%list)
    = found (Array.find_from pred k l).
Proof.
  intros Hy. induction l as [|t l IH]; intros k; simpl.
  - now rewrite Hy.
  - destruct (pred t) as [[]|]; auto.
Qed.

(** The record found is replaced: the search finds the new one, at
    the same place. *)
Lemma find_from_replaced pred y : pred y = Ok true ->
  forall l k i x,
    Array.find_from pred k l = Ok (Some (k + i, x)) ->
    Array.find_from pred k (Array.replace i y l) = Ok (Some (k + i, y)).
Proof.
  intros Hy. induction l as [|t l IH]; intros k i x H; simpl in *;
    [discriminate|].
  destruct (pred t) as [[]|] eqn:Et; try discriminate.
  - injection H as Hk ->. assert (i = 0) by lia. subst i. simpl.
    now rewrite Hy, Nat.add_0_r.
  - destruct (find_from_some _ _ _ _ _ H) as (j & Hj & _).
    destruct i as [|i]; [lia|]. simpl. rewrite Et.
    replace (k + S i) with (S k + i) in * by lia. eapply IH; eauto.
Qed.

(** The answer to a [GET] by identifier, from what the search
    returns. *)
Lemma get_outcome_found id w w' r :
  found (Array.find (stored w') (has_id id))
  = found (Array.find (stored w) (has_id id)) ->
  get_outcome id w r -> get_outcome id w' r.
Proof.
  unfold get_outcome.
  destruct (Array.find (stored w') (has_id id)) as [[[i' t']|]|e'];
    destruct (Array.find (stored w) (has_id id)) as [[[i t]|]|e];
    simpl; congruence.
Qed.

(** ** Lists with one element removed *)

Lemma length_remove i (l : list value) x :
  nth_error l i = Some x -> S (List.length (Array.remove i l)) = List.length l.
Proof.
  revert i. induction l as [|t l IH]; intros [|i] H; simpl in *;
    try discriminate; auto.
Qed.

Lemma nth_remove_before i (l : list value) : forall j,
  j < i -> nth_error (Array.remove i l) j = nth_error l j.
Proof.
  revert i. induction l as [|t l IH]; intros [|i] [|j] H; simpl; auto; try lia.
  apply IH. lia.
Qed.

Lemma nth_remove_after i (l : list value) : forall j,
  i <= j -> nth_error (Array.remove i l) j = nth_error l (S j).
Proof.
  revert i. induction l as [|t l IH]; intros [|i] [|j] H; simpl; auto; try lia.
  apply IH. lia.
Qed.

(** ** The text of what was read back *)

Lemma kept_strip fs : kept (map strip_member (kept fs)) = map strip_member (kept fs).
Proof.
  induction fs as [|[k v] r IH]; simpl; [reflexivity|].
  destruct v; simpl; try (f_equal; exact IH); auto.
Qed.

Lemma json_text_strip v : JSON.json_text (strip v) = JSON.json_text v.
Proof.
  induction v as [| |b|n|s|l IH|fs IH] using value_ind'; try reflexivity.
  - change (strip (Arr l)) with (Arr (map strip l)). rewrite !json_text_Arr.
    do 3 f_equal. rewrite map_map. apply map_ext_Forall. exact IH.
  - rewrite strip_Obj, !json_text_Obj, kept_strip, map_map. do 3 f_equal.
    apply map_ext_Forall.
    assert (Forall (fun kv => JSON.json_text (strip (snd kv))
                              = JSON.json_text (snd kv)) (kept fs)).
    { rewrite Forall_forall in *. intros kv Hkv. apply IH.
      now apply kept_incl. }
    eapply Forall_impl; [|exact H]. intros [k x] E. unfold member_text.
    simpl in *. now rewrite E.
Qed.

(** ** Requests, by what they leave behind *)

Lemma get_quiet m p b ps0 w r w' :
  m = GET \/ m = HEAD ->
  serve (mkRequest m p b ps0) w = (r, w') ->
  untouched w w' /\ same_env w w' /\ next_uuid w' = next_uuid w.
Proof.
  intros Hm E. rewrite serve_eq in E.
  assert (unchanged : untouched w w /\ same_env w w /\ next_uuid w = next_uuid w)
    by (unfold untouched, same_env; auto).
  destruct Hm as [-> | ->].
  - destruct (match_path "/todos" p) as [ps|].
    + destruct (get_todos_run GET p b ps w) as (w1 & E1 & He & Hu & Hn).
      rewrite E1 in E. injection E as <- <-. auto.
    + destruct (match_path "/todos/:id" p) as [ps|] eqn:Ei;
        [|injection E as <- <-; exact unchanged].
      destruct (item_path _ _ Ei) as (_ & id & ->).
      destruct (get_todo_run GET p b id w) as (r1 & w1 & E1 & _ & He & Hu & Hn).
      rewrite E1 in E. injection E as <- <-. auto.
  - destruct (match_path "/todos" p) as [ps|].
    + destruct (get_todos_run HEAD p b ps w) as (w1 & E1 & He & Hu & Hn).
      rewrite E1 in E. injection E as <- <-. auto.
    + destruct (match_path "/todos/:id" p) as [ps|] eqn:Ei;
        [|injection E as <- <-; exact unchanged].
      destruct (item_path _ _ Ei) as (_ & id & ->).
      destruct (get_todo_run HEAD p b id w) as (r1 & w1 & E1 & _ & He & Hu & Hn).
      rewrite E1 in E. injection E as <- <-. auto.
Qed.

(** An answer other than 200 and 201 comes with the file as it was. *)
Lemma failure_keeps_file m p b ps0 w r w' :
  serve (mkRequest m p b ps0) w = (r, w') ->
  status r <> 200 -> status r <> 201 ->
  file w' = file w /\ same_env w w'.
Proof.
  intros E H200 H201. split; [|now apply (serve_frame _ _ _ _ _ _ _ E)].
  destruct m; try (rewrite serve_eq in E; injection E as <- <-; reflexivity).
  - now apply (get_quiet GET p b ps0 w r w'); auto.
  - now apply (get_quiet HEAD p b ps0 w r w'); auto.
  - rewrite serve_eq in E.
    destruct (match_path "/todos" p) as [ps|];
      [|injection E as <- <-; reflexivity].
    destruct (post_run POST p b ps w) as (r1 & w1 & E1 & Ho & _).
    rewrite E1 in E. injection E as <- <-. eapply post_failure; eauto.
  - rewrite serve_eq in E.
    destruct (match_path "/todos/:id" p) as [ps|] eqn:Ei;
      [|injection E as <- <-; reflexivity].
    destruct (item_path _ _ Ei) as (_ & id & ->).
    destruct (put_run PUT p b id w) as (r1 & w1 & E1 & Ho & _).
    rewrite E1 in E. injection E as <- <-. eapply put_failure; eauto.
  - rewrite serve_eq in E.
    destruct (match_path "/todos/:id" p) as [ps|] eqn:Ei;
      [|injection E as <- <-; reflexivity].
    destruct (item_path _ _ Ei) as (_ & id & ->).
    destruct (delete_run DELETE p b id w) as (r1 & w1 & E1 & Ho & _).
    rewrite E1 in E. injection E as <- <-. eapply delete_failure; eauto.
Qed.

Lemma serve_statuses m p b ps0 w r w' :
  serve (mkRequest m p b ps0) w = (r, w') ->
  match m with
  | POST => status r = 201 \/ status r = 404 \/ status r = 500
  | _ => status r = 200 \/ status r = 404 \/ status r = 500
  end.
Proof.
  intros E. rewrite serve_eq in E.
  destruct m; try (injection E as <- <-; simpl; auto).
  - destruct (match_path "/todos" p) as [ps|].
    + destruct (get_todos_run GET p b ps w) as (w1 & E1 & _).
      rewrite E1 in E. injection E as <- <-. auto.
    + destruct (match_path "/todos/:id" p) as [ps|] eqn:Ei;
        [|injection E as <- <-; simpl; auto].
      destruct (item_path _ _ Ei) as (_ & id & ->).
      destruct (get_todo_run GET p b id w) as (r1 & w1 & E1 & Ho & _).
      rewrite E1 in E. injection E as <- <-. eapply get_statuses; eauto.
  - destruct (match_path "/todos" p) as [ps|].
    + destruct (get_todos_run HEAD p b ps w) as (w1 & E1 & _).
      rewrite E1 in E. injection E as <- <-. auto.
    + destruct (match_path "/todos/:id" p) as [ps|] eqn:Ei;
        [|injection E as <- <-; simpl; auto].
      destruct (item_path _ _ Ei) as (_ & id & ->).
      destruct (get_todo_run HEAD p b id w) as (r1 & w1 & E1 & Ho & _).
      rewrite E1 in E. injection E as <- <-. eapply get_statuses; eauto.
  - destruct (match_path "/todos" p) as [ps|];
      [|injection E as <- <-; simpl; auto].
    destruct (post_run POST p b ps w) as (r1 & w1 & E1 & Ho & _).
    rewrite E1 in E. injection E as <- <-.
    destruct (post_statuses _ _ _ _ Ho); auto.
  - destruct (match_path "/todos/:id" p) as [ps|] eqn:Ei;
      [|injection E as <- <-; simpl; auto].
    destruct (item_path _ _ Ei) as (_ & id & ->).
    destruct (put_run PUT p b id w) as (r1 & w1 & E1 & Ho & _).
    rewrite E1 in E. injection E as <- <-. eapply put_statuses; eauto.
  - destruct (match_path "/todos/:id" p) as [ps|] eqn:Ei;
      [|injection E as <- <-; simpl; auto].
    destruct (item_path _ _ Ei) as (_ & id & ->).
    destruct (delete_run DELETE p b id w) as (r1 & w1 & E1 & Ho & _).
    rewrite E1 in E. injection E as <- <-. eapply delete_statuses; eauto.
Qed.

(** A request for one record, when the search finds none or throws. *)
Lemma by_id_missing m p id b w :
  m = GET \/ m = HEAD \/ m = PUT \/ m = DELETE ->
  match_path "/todos/:id" p = Some [("id", id)] ->
  exists r w', serve (request m p b) w = (r, w')
    /\ match Array.find (stored w) (has_id id) with
       | Throw e => r = crashed e /\ untouched w w'
       | Ok None => r = not_found /\ untouched w w'
       | Ok (Some _) => True
       end.
Proof.
  intros Hm Hp. destruct (item_path _ _ Hp) as (Hc & _).
  unfold request. rewrite serve_eq, Hc, Hp.
  destruct Hm as [-> | [-> | [-> | ->]]].
  - destruct (get_todo_run GET p b id w) as (r & w' & E & Ho & _ & Hu & _).
    exists r, w'. split; [assumption|]. unfold get_outcome in Ho.
    destruct (Array.find (stored w) (has_id id)) as [[[i t]|]|e]; auto.
  - destruct (get_todo_run HEAD p b id w) as (r & w' & E & Ho & _ & Hu & _).
    exists r, w'. split; [assumption|]. unfold get_outcome in Ho.
    destruct (Array.find (stored w) (has_id id)) as [[[i t]|]|e]; auto.
  - destruct (put_run PUT p b id w) as (r & w' & E & [_ Ho] & _).
    exists r, w'. split; [assumption|].
    destruct (Array.find (stored w) (has_id id)) as [[[i t]|]|e]; auto.
  - destruct (delete_run DELETE p b id w) as (r & w' & E & [_ Ho] & _).
    exists r, w'. split; [assumption|].
    destruct (Array.find (stored w) (has_id id)) as [[[i t]|]|e]; auto.
Qed.

(** ** Files that hold no list *)

Lemma unavailable_stored w : unavailable w -> stored w = Arr [].
Proof.
  rewrite stored_eq. intros [-> | [Hr | (data & e & -> & Hp)]]; auto.
  - rewrite Hr. now destruct (file w).
  - rewrite Hp. now destruct (can_read w).
Qed.

Lemma find_not_array v pred :
  (forall l, v <> Arr l) -> Array.find v pred = Throw TypeError.
Proof. intros H. destruct v; try reflexivity. now contradiction (H elems). Qed.

Lemma push_not_array b w r w' :
  (forall l, stored w <> Arr l) -> post_outcome b w r w' ->
  r = crashed TypeError /\ untouched w w'.
Proof.
  intros Hna [_ H]. destruct (nullish b); [assumption|].
  destruct (stored w); try assumption. now contradiction (Hna elems).
Qed.

(** ** What is saved, of any value *)





Lemma put_file id b w r w' :
  put_outcome id b w r w' -> status r = 200 ->
  exists l i todo,
    stored w = Arr l /\ Array.find_from (has_id id) 0 l = Ok (Some (i, todo))
    /\ file w' = Some (JSON.json_text (Arr (Array.replace i (updated todo b) l))).
Proof.
  intros [_ H] Hs.
  destruct (Array.find (stored w) (has_id id)) as [[[i t]|]|e] eqn:Ef;
    try (destruct H as [-> _]; discriminate).
  destruct (find_array _ _ _ Ef) as (l & El). rewrite El in *.
  destruct (nullish b); [destruct H as [-> _]; discriminate|].
  destruct H as [_ H]. destruct (can_write w);
    [|destruct H as [-> _]; discriminate].
  exists l, i, t. repeat split; [exact Ef|apply H].
Qed.


(** ** Requests that cannot fail *)

Lemma find_records id w :
  consistent w -> exists x, Array.find (stored w) (has_id id) = Ok x.
Proof.
  intros (l & -> & Hrec & _). unfold Array.find. now apply find_from_records.
Qed.

(** On a consistent list and a disk that can be written, a request
    with a body of [express.json()] is not answered 500. *)
Lemma serve_no_500 m p b ps0 w r w' :
  serve (mkRequest m p b ps0) w = (r, w') ->
  is_body b = true -> consistent w -> can_write w = true ->
  status r <> 500.
Proof.
  intros E Hb Hc Hw. pose proof (body_not_nullish _ Hb) as Hn.
  rewrite serve_eq in E.
  destruct m; try (injection E as <- <-; discriminate).
  - destruct (match_path "/todos" p) as [ps|].
    + destruct (get_todos_run GET p b ps w) as (w1 & E1 & _).
      rewrite E1 in E. injection E as <- <-. discriminate.
    + destruct (match_path "/todos/:id" p) as [ps|] eqn:Ei;
        [|injection E as <- <-; discriminate].
      destruct (item_path _ _ Ei) as (_ & id & ->).
      destruct (get_todo_run GET p b id w) as (r1 & w1 & E1 & Ho & _).
      rewrite E1 in E. injection E as <- <-. unfold get_outcome in Ho.
      destruct (find_records id w Hc) as ([[i t]|] & Ef); rewrite Ef in Ho;
        subst r1; discriminate.
  - destruct (match_path "/todos" p) as [ps|].
    + destruct (get_todos_run HEAD p b ps w) as (w1 & E1 & _).
      rewrite E1 in E. injection E as <- <-. discriminate.
    + destruct (match_path "/todos/:id" p) as [ps|] eqn:Ei;
        [|injection E as <- <-; discriminate].
      destruct (item_path _ _ Ei) as (_ & id & ->).
      destruct (get_todo_run HEAD p b id w) as (r1 & w1 & E1 & Ho & _).
      rewrite E1 in E. injection E as <- <-. unfold get_outcome in Ho.
      destruct (find_records id w Hc) as ([[i t]|] & Ef); rewrite Ef in Ho;
        subst r1; discriminate.
  - destruct (match_path "/todos" p) as [ps|];
      [|injection E as <- <-; discriminate].
    destruct (post_run POST p b ps w) as (r1 & w1 & E1 & [_ Ho] & _).
    rewrite E1 in E. injection E as <- <-.
    destruct Hc as (l & El & _). rewrite Hn, El, Hw in Ho.
    destruct Ho as (_ & -> & _). discriminate.
  - destruct (match_path "/todos/:id" p) as [ps|] eqn:Ei;
      [|injection E as <- <-; discriminate].
    destruct (item_path _ _ Ei) as (_ & id & ->).
    destruct (put_run PUT p b id w) as (r1 & w1 & E1 & [_ Ho] & _).
    rewrite E1 in E. injection E as <- <-.
    destruct (find_records id w Hc) as ([[i t]|] & Ef); rewrite Ef in Ho.
    + rewrite Hn, Hw in Ho. destruct Ho as (_ & -> & _). discriminate.
    + destruct Ho as (-> & _). discriminate.
  - destruct (match_path "/todos/:id" p) as [ps|] eqn:Ei;
      [|injection E as <- <-; discriminate].
    destruct (item_path _ _ Ei) as (_ & id & ->).
    destruct (delete_run DELETE p b id w) as (r1 & w1 & E1 & [_ Ho] & _).
    rewrite E1 in E. injection E as <- <-.
    destruct (find_records id w Hc) as ([[i t]|] & Ef); rewrite Ef in Ho.
    + rewrite Hw in Ho. destruct Ho as (_ & -> & _). discriminate.
    + destruct Ho as (-> & _). discriminate.
Qed.

(** ** The same update, a second time *)

(** Writing to a property what reads back as what it holds does not
    change what is stored of the object. *)
Lemma stored_assign k v fs :
  match lookup k fs with
  | Some x => reread x = reread v
  | None => v = Undefined
  end ->
  map strip_member (kept (assign k v fs)) = map strip_member (kept fs).
Proof.
  induction fs as [|[k' x] r IH]; simpl.
  - intros ->. reflexivity.
  - destruct (String.eqb_spec k' k) as [->|Hk]; intros H.
    + destruct x, v; simpl in *; try discriminate; try reflexivity;
        unfold strip_member; simpl; congruence.
    + destruct x; simpl; rewrite ?IH; auto.
Qed.

Lemma stored_reassign k v fs X :
  NoDup (keys fs) -> lookup k fs = Some v ->
  v = Undefined \/ is_json v = true ->
  lookup k X = lookup k (map strip_member (kept fs)) ->
  map strip_member (kept (assign k v X)) = map strip_member (kept X).
Proof.
  intros Hnd Hl Hv HX. apply stored_assign.
  rewrite HX. rewrite lookup_kept by assumption. rewrite Hl.
  destruct Hv as [-> | Hj]; [reflexivity|].
  rewrite (strip_json _ Hj). destruct v; reflexivity.
Qed.

Lemma updated_again fs b :
  is_json (Obj fs) = true -> is_json b = true ->
  strip (updated (strip (updated (Obj fs) b)) b) = strip (updated (Obj fs) b).
Proof.
  intros Hj Hb. pose proof (updated_keys fs b (json_keys _ Hj)) as Hnd.
  rewrite (updated_Obj fs), (strip_Obj (updated_fields fs b)).
  set (S := map strip_member (kept (updated_fields fs b))).
  rewrite updated_Obj, strip_Obj. f_equal.
  assert (HS : map strip_member (kept S) = S).
  { assert (E : strip (Obj S) = Obj S).
    { apply strip_json. unfold S. rewrite <- strip_Obj, <- updated_Obj.
      apply strip_is_json. now apply wf_updated. }
    rewrite strip_Obj in E. now injection E. }
  rewrite <- HS at 2. unfold updated_fields at 1.
  rewrite (stored_reassign "completed" _ (updated_fields fs b)); auto.
  - rewrite (stored_reassign "description" _ (updated_fields fs b)); auto.
    + rewrite (stored_reassign "title" _ (updated_fields fs b)); auto.
      * unfold updated_fields.
        rewrite !lookup_assign_other by discriminate.
        apply lookup_assign_same.
      * now apply field_json.
    + unfold updated_fields.
      rewrite lookup_assign_other by discriminate. apply lookup_assign_same.
    + now apply field_json.
    + now rewrite lookup_assign_other by discriminate.
  - unfold updated_fields. apply lookup_assign_same.
  - right. now apply completed_json.
  - now rewrite !lookup_assign_other by discriminate.
Qed.

Lemma replace_replace i (x y : value) l :
  Array.replace i x (Array.replace i y l) = Array.replace i x l.
Proof.
  revert i. induction l as [|t l IH]; intros [|i]; simpl; auto. now rewrite IH.
Qed.

(* ================================================================= *)
(** * Properties of the server *)





(** C3. Persistence: after [saveTodoToFile] returned [true] on a list of
    JSON records, [getTodosFromFile] on the file it left (readable, as
    after a restart) returns exactly that list. *)
Theorem save_then_load (todos : list value) (w w' : World) :
  is_json (Arr todos) = true ->
  saveTodoToFile (Arr todos) w = (Ok true, w') ->
  can_read w' = true ->
  exists w'', getTodosFromFile w' = (Ok (Arr todos), w'').
Proof.
  intros Hj Hs Hr.
  destruct (saved_then_loaded todos w w' (is_json_wf _ Hj) Hs Hr) as (w2 & E).
  exists w2. rewrite E. simpl in Hj. now rewrite (strip_list _ Hj).
Qed.

Lemma save_then_load_witness :
  exists w'',
    getTodosFromFile
      (snd (saveTodoToFile (Arr [Obj [("id", Str "a"); ("title", Str "t");
                                      ("description", Str "d");
                                      ("completed", Bool true)]]) world0))
    = (Ok (Arr [Obj [("id", Str "a"); ("title", Str "t");
                     ("description", Str "d"); ("completed", Bool true)]]), w'').
Proof.
  apply (save_then_load _ world0).
  - reflexivity.
  - vm_compute. reflexivity.
  - reflexivity.
Defined.

(** C4. [getTodosFromFile] never throws and leaves the file as it is;
    when the file does not exist, cannot be read or is not JSON, it
    returns the empty list, and all it does besides reading is one
    [console.log] of the error. *)
Theorem load_fails_soft (w : World) :
  (exists v w', getTodosFromFile w = (Ok v, w') /\ file w' = file w) /\
  (unavailable w ->
   exists e w', getTodosFromFile w = (Ok (Arr []), w')
                /\ trace w' = ConsoleLog e :: ReadFile :: trace w).
Proof.
  split.
  - destruct (load_eq w) as (w' & E & Hf & _). eauto.
  - destruct w as [f cr cw u n tr].
    unfold unavailable, getTodosFromFile, try_catch, bind, readFileSync, lift,
      console_log, ret, emit. simpl.
    intros [->|[->|(data & e & -> & E)]]; simpl.
    + do 2 eexists; split; reflexivity.
    + destruct f; do 2 eexists; split; reflexivity.
    + destruct cr; [rewrite E|]; do 2 eexists; split; reflexivity.
Qed.

Lemma load_fails_soft_witness :
  exists e w', getTodosFromFile world0 = (Ok (Arr []), w')
               /\ trace w' = ConsoleLog e :: ReadFile :: trace world0.
Proof.
  apply (proj2 (load_fails_soft world0)). left. reflexivity.
Defined.

(** C5. [saveTodoToFile] never throws: it returns a boolean, [false]
    exactly when the write fails.  A request during which the file was
    written to in a world where writing fails is answered 500 with
    [{message: "Failed to save todo"}]. *)
Theorem save_failure_is_500 :
  (forall todos w, exists ok w', saveTodoToFile todos w = (Ok ok, w')) /\
  (forall l w, fst (saveTodoToFile (Arr l) w) = Ok (can_write w)) /\
  (forall req w,
      can_write w = false -> writes (snd (serve req w)) <> writes w ->
      fst (serve req w) = failed_save).
Proof.
  split; [|split].
  - intros todos [f cr cw u n tr].
    unfold saveTodoToFile, try_catch, bind, writeFileSync, console_log, ret.
    destruct (JSON.stringify todos); simpl; [destruct cw|]; simpl; eauto.
  - intros l w. destruct (save_eq l w) as (w' & E & _). now rewrite E.
  - intros [m p b ps] w Hc Hw.
    destruct (serve (mkRequest m p b ps) w) as [r w'] eqn:E.
    destruct (serve_frame _ _ _ _ _ _ _ E) as (_ & _ & H & _). auto.
Qed.

Lemma save_failure_is_500_witness :
  fst (serve (request POST "/todos" groceries) (read_only world0)) = failed_save.
Proof.
  apply (proj2 (proj2 save_failure_is_500)).
  - reflexivity.
  - vm_compute. discriminate.
Defined.

(** C6. Delete, then get: on a consistent list, when [DELETE] on a path
    answers 200, the answer is [{message: "Todo deleted"}], the record
    with the identifier of the path has left the stored list, and [GET]
    on the same path then answers 404 with [{message: "Todo not
    found"}]. *)
Theorem delete_then_get (w : World) (p : string) (b b' : value)
  (r1 : Response) (w1 : World) :
  consistent w ->
  serve (request DELETE p b) w = (r1, w1) -> status r1 = 200 ->
  payload r1 = Json (message "Todo deleted")
  /\ (exists id l i old,
        match_path "/todos/:id" p = Some [("id", id)]
        /\ stored w = Arr l /\ nth_error l i = Some old
        /\ field old "id" = Str id
        /\ stored w1 = Arr (Array.remove i l))
  /\ exists w2, serve (request GET p b') w1 = (not_found, w2).
Proof.
  intros (l & El & Hrec & Hnd) E Hs.
  unfold request in *. rewrite serve_eq in E.
  destruct (match_path "/todos/:id" p) as [ps|] eqn:Hp;
    [|injection E as <- <-; discriminate].
  destruct (item_path _ _ Hp) as (Hc & id & ->).
  destruct (delete_run DELETE p b id w) as (r & w' & E' & Ho & He).
  rewrite E' in E. injection E as <- <-.
  destruct (delete_removed _ _ _ _ Ho He Hs)
    as (l0 & i & fs & El0 & Hw & Hf & Hnth & -> & Es).
  rewrite El in El0. injection El0 as <-.
  assert (Hid : id_of (Obj fs) = Str id).
  { destruct (find_from_some _ _ _ _ _ Hf) as (k & _ & _ & Hid & _).
    apply has_id_iff in Hid; [assumption|].
    rewrite forallb_forall in Hrec. apply Hrec. eapply nth_error_In; eauto. }
  split; [reflexivity|]. split.
  { exists id, l, i, (Obj fs). repeat split; auto. }
  rewrite serve_eq, Hc, Hp.
  destruct (get_todo_run GET p b' id w') as (r2 & w2 & E2 & Hg & _).
  rewrite E2. exists w2. f_equal.
  unfold get_outcome in Hg. rewrite Es in Hg. simpl in Hg.
  rewrite find_from_none in Hg; [assumption|now apply forallb_remove|].
  rewrite ids_remove. apply removed_absent; [assumption|].
  unfold ids. rewrite nth_error_map, Hnth. simpl. now f_equal.
Qed.

Lemma delete_then_get_witness :
  payload (fst (serve (request DELETE "/todos/id-0" (Obj [])) world1))
  = Json (message "Todo deleted")
  /\ (exists id l i old,
        match_path "/todos/:id" "/todos/id-0" = Some [("id", id)]
        /\ stored world1 = Arr l /\ nth_error l i = Some old
        /\ field old "id" = Str id
        /\ stored (snd (serve (request DELETE "/todos/id-0" (Obj [])) world1))
           = Arr (Array.remove i l))
  /\ exists w2,
       serve (request GET "/todos/id-0" (Obj []))
         (snd (serve (request DELETE "/todos/id-0" (Obj [])) world1))
       = (not_found, w2).
Proof.
  apply (delete_then_get world1 "/todos/id-0" (Obj []) (Obj [])).
  - exact world1_consistent.
  - apply surjective_pairing.
  - vm_compute. reflexivity.
Defined.



(** C8. Frame of an update: when [PUT /todos/:id] answers 200, the stored
    list keeps its length, the record with the identifier of the path
    keeps its place, its [id] and every property other than [title],
    [description] and [completed], and the records at the other places
    are those that were there. *)
Theorem update_frame (w : World) (p : string) (b : value)
  (r : Response) (w' : World) :
  is_json b = true ->
  serve (request PUT p b) w = (r, w') -> status r = 200 ->
  exists id l l' i old new,
    match_path "/todos/:id" p = Some [("id", id)]
    /\ stored w = Arr l /\ stored w' = Arr l'
    /\ List.length l' = List.length l
    /\ nth_error l i = Some old /\ nth_error l' i = Some new
    /\ field old "id" = Str id /\ field new "id" = Str id
    /\ (forall k, k <> "title" -> k <> "description" -> k <> "completed" ->
                  field new k = field old k)
    /\ (forall j, j <> i -> nth_error l' j = nth_error l j).
Proof.
  intros Hb E Hs. unfold request in E. rewrite serve_eq in E.
  destruct (match_path "/todos/:id" p) as [ps|] eqn:Hp;
    [|injection E as <- <-; discriminate].
  destruct (item_path _ _ Hp) as (_ & id & ->).
  destruct (put_run PUT p b id w) as (r2 & w2 & E2 & Ho & He).
  rewrite E2 in E. injection E as <- <-.
  destruct (put_updated _ _ _ _ _ Ho He Hs Hb)
    as (l & i & fs & El & Hw & Hf & Hj & Hnth & -> & Es).
  assert (Hid : field (Obj fs) "id" = Str id).
  { destruct (find_from_some _ _ _ _ _ Hf) as (k & _ & _ & Hid & _).
    destruct (has_id_true _ _ Hid) as (fs' & [= <-] & Hl).
    unfold field. simpl. now rewrite Hl. }
  exists id, l, (Array.replace i (strip (updated (Obj fs) b)) l), i, (Obj fs),
    (strip (updated (Obj fs) b)).
  repeat split; auto.
  - apply length_replace.
  - eapply nth_replace_same; eauto.
  - rewrite <- Hid. apply updated_other_stored; [assumption|discriminate..].
  - intros k N1 N2 N3. now apply updated_other_stored.
  - intros j Hji. now apply nth_replace_other.
Qed.

Lemma update_frame_witness :
  exists id l l' i old new,
    match_path "/todos/:id" "/todos/id-0" = Some [("id", id)]
    /\ stored world1 = Arr l
    /\ stored (snd (serve (request PUT "/todos/id-0" milk) world1)) = Arr l'
    /\ List.length l' = List.length l
    /\ nth_error l i = Some old /\ nth_error l' i = Some new
    /\ field old "id" = Str id /\ field new "id" = Str id
    /\ (forall k, k <> "title" -> k <> "description" -> k <> "completed" ->
                  field new k = field old k)
    /\ (forall j, j <> i -> nth_error l' j = nth_error l j).
Proof.
  apply (update_frame world1 "/todos/id-0" milk
           (fst (serve (request PUT "/todos/id-0" milk) world1))).
  - reflexivity.
  - apply surjective_pairing.
  - vm_compute. reflexivity.
Defined.



(** C10. A [PUT] or [DELETE] answered 404 has not called
    [fs.writeFileSync] and has left the file as it was. *)
Theorem not_found_is_atomic (m : Method) (p : string) (b : value)
  (w : World) (r : Response) (w' : World) :
  m = PUT \/ m = DELETE ->
  serve (request m p b) w = (r, w') -> status r = 404 ->
  file w' = file w /\ writes w' = writes w.
Proof.
  intros _ E Hs. destruct (serve_frame _ _ _ _ _ _ _ E) as (_ & H & _).
  exact (H Hs).
Qed.

Lemma not_found_is_atomic_witness :
  file (snd (serve (request DELETE "/todos/nope" (Obj [])) world1)) = file world1
  /\ writes (snd (serve (request DELETE "/todos/nope" (Obj [])) world1))
     = writes world1.
Proof.
  apply (not_found_is_atomic DELETE "/todos/nope" (Obj []) world1
           (fst (serve (request DELETE "/todos/nope" (Obj [])) world1))).
  - right. reflexivity.
  - apply surjective_pairing.
  - vm_compute. reflexivity.
Defined.

(* ================================================================= *)
(** * Further properties of the server *)

(** X1. A [GET] or a [HEAD] reads only: whatever the path and the
    file, it does not call [fs.writeFileSync], leaves the file as it
    was and draws no identifier; asked again, with any body, it gets
    the same answer. *)
Theorem reads_change_nothing (m : Method) (p : string) (b : value)
  (w : World) (r : Response) (w' : World) :
  m = GET \/ m = HEAD ->
  serve (request m p b) w = (r, w') ->
  file w' = file w /\ writes w' = writes w /\ next_uuid w' = next_uuid w
  /\ forall b', fst (serve (request m p b') w') = r.
Proof.
  intros Hm E.
  destruct (get_quiet _ _ _ _ _ _ _ Hm E) as ([Hf Hw] & He & Hn).
  repeat split; auto. intros b'.
  rewrite (get_by_stored m p b' b w' w Hm).
  - now rewrite E.
  - apply stored_same; [assumption|apply He].
Qed.

Lemma reads_change_nothing_witness :
  file (snd (serve (request GET "/todos/id-0" (Obj [])) world1)) = file world1
  /\ writes (snd (serve (request GET "/todos/id-0" (Obj [])) world1))
     = writes world1
  /\ next_uuid (snd (serve (request GET "/todos/id-0" (Obj [])) world1))
     = next_uuid world1
  /\ forall b',
       fst (serve (request GET "/todos/id-0" b')
              (snd (serve (request GET "/todos/id-0" (Obj [])) world1)))
       = fst (serve (request GET "/todos/id-0" (Obj [])) world1).
Proof.
  apply (reads_change_nothing GET "/todos/id-0" (Obj []) world1).
  - left. reflexivity.
  - apply surjective_pairing.
Defined.




(** X4. A request for one record ([GET], [HEAD], [PUT] or [DELETE] on
    [/todos/:id]) whose identifier no element of the stored list has is
    answered 404 with [{message: "Todo not found"}], whatever its body,
    and the file is not written to.  No element of the list is
    [null]. *)
Theorem unknown_id_is_404 (m : Method) (p id : string) (b : value)
  (w : World) (l : list value) :
  m = GET \/ m = HEAD \/ m = PUT \/ m = DELETE ->
  match_path "/todos/:id" p = Some [("id", id)] ->
  stored w = Arr l ->
  (forall t, In t l -> t <> Null /\ id_of t <> Str id) ->
  exists w', serve (request m p b) w = (not_found, w')
             /\ file w' = file w /\ writes w' = writes w.
Proof.
  intros Hm Hp El Hl.
  destruct (by_id_missing m p id b w Hm Hp) as (r & w' & E & H).
  rewrite El in H. simpl in H. rewrite find_from_nowhere in H.
  - destruct H as [-> Hu]. exists w'. split; [assumption|exact Hu].
  - intros t Ht. destruct (Hl t Ht) as [Hn Hid].
    apply has_id_other; [|assumption]. apply json_not_null; [|assumption].
    pose proof (stored_list _ _ El) as Hj. rewrite forallb_forall in Hj. auto.
Qed.

Lemma unknown_id_is_404_witness :
  exists w', serve (request PUT "/todos/id-7" Undefined) world2 = (not_found, w')
             /\ file w' = file world2 /\ writes w' = writes world2.
Proof.
  apply (unknown_id_is_404 PUT "/todos/id-7" "id-7" Undefined world2
           [new_todo "id-0" groceries; new_todo "id-1" milk]).
  - right. right. left. reflexivity.
  - vm_compute. reflexivity.
  - vm_compute. reflexivity.
  - intros t [<- | [<- | []]]; split; discriminate.
Defined.

(** X5. With several elements of one identifier in the stored list,
    [GET /todos/:id] answers 200 with the first of them: the record at
    a place such that no element before it is [null] or has the
    identifier. *)
Theorem get_returns_first (m : Method) (p id : string) (b : value)
  (w : World) (l : list value) (i : nat) (old : value) :
  m = GET \/ m = HEAD ->
  match_path "/todos/:id" p = Some [("id", id)] ->
  stored w = Arr l -> nth_error l i = Some old -> id_of old = Str id ->
  (forall j t, j < i -> nth_error l j = Some t ->
               t <> Null /\ id_of t <> Str id) ->
  fst (serve (request m p b) w) = mkResponse 200 (Json old).
Proof.
  intros Hm Hp El Hn Hid Hb. destruct (item_path _ _ Hp) as (Hc & _).
  assert (Hf : Array.find (stored w) (has_id id) = Ok (Some (0 + i, old))).
  { rewrite El. unfold Array.find. apply find_from_first; auto.
    - now apply has_id_same.
    - intros j t Hj Ht. destruct (Hb j t Hj Ht) as [Hnull Hne].
      apply has_id_other; [|assumption]. apply json_not_null; [|assumption].
      pose proof (stored_list _ _ El) as Hjs. rewrite forallb_forall in Hjs.
      apply Hjs. eapply nth_error_In; eauto. }
  unfold request. rewrite serve_eq, Hc, Hp.
  destruct Hm as [-> | ->].
  - destruct (get_todo_run GET p b id w) as (r & w' & -> & Ho & _).
    unfold get_outcome in Ho. rewrite Hf in Ho. exact Ho.
  - destruct (get_todo_run HEAD p b id w) as (r & w' & -> & Ho & _).
    unfold get_outcome in Ho. rewrite Hf in Ho. exact Ho.
Qed.

Lemma get_returns_first_witness :
  fst (serve (request GET "/todos/id-1" (Obj [])) world2)
  = mkResponse 200 (Json (new_todo "id-1" milk)).
Proof.
  apply (get_returns_first GET "/todos/id-1" "id-1" (Obj []) world2
           [new_todo "id-0" groceries; new_todo "id-1" milk] 1).
  - left. reflexivity.
  - vm_compute. reflexivity.
  - vm_compute. reflexivity.
  - reflexivity.
  - reflexivity.
  - intros [|[|j]] t Hj Ht; [|lia|lia]. injection Ht as <-.
    split; discriminate.
Defined.

(** X6. A [null] in the stored list breaks the requests for the
    records behind it: when no element before the [null] has the
    identifier asked for, [t.id] throws in [find], the request ([GET],
    [HEAD], [PUT] or [DELETE] on [/todos/:id]) is answered 500 by the
    default error handler, and the file is not written to. *)
Theorem null_entry_breaks_lookup (m : Method) (p id : string) (b : value)
  (w : World) (l : list value) (i : nat) :
  m = GET \/ m = HEAD \/ m = PUT \/ m = DELETE ->
  match_path "/todos/:id" p = Some [("id", id)] ->
  stored w = Arr l -> nth_error l i = Some Null ->
  (forall j t, j < i -> nth_error l j = Some t ->
               t <> Null /\ id_of t <> Str id) ->
  exists w', serve (request m p b) w = (crashed TypeError, w')
             /\ file w' = file w /\ writes w' = writes w.
Proof.
  intros Hm Hp El Hn Hb.
  destruct (by_id_missing m p id b w Hm Hp) as (r & w' & E & H).
  rewrite El in H. simpl in H.
  rewrite (find_from_throw (has_id id) l i Null TypeError) in H; auto.
  - destruct H as [-> Hu]. exists w'. split; [assumption|exact Hu].
  - intros j t Hj Ht. destruct (Hb j t Hj Ht) as [Hnull Hne].
    apply has_id_other; [|assumption]. apply json_not_null; [|assumption].
    pose proof (stored_list _ _ El) as Hjs. rewrite forallb_forall in Hjs.
    apply Hjs. eapply nth_error_In; eauto.
Qed.

Lemma null_entry_breaks_lookup_witness :
  exists w',
    serve (request DELETE "/todos/b" (Obj []))
      (with_file (dq "[{'id':'a'},null,{'id':'b'}]") world0)
    = (crashed TypeError, w')
    /\ file w' = file (with_file (dq "[{'id':'a'},null,{'id':'b'}]") world0)
    /\ writes w' = writes (with_file (dq "[{'id':'a'},null,{'id':'b'}]") world0).
Proof.
  apply (null_entry_breaks_lookup DELETE "/todos/b" "b" (Obj [])
           (with_file (dq "[{'id':'a'},null,{'id':'b'}]") world0)
           [Obj [("id", Str "a")]; Null; Obj [("id", Str "b")]] 1).
  - right. right. right. reflexivity.
  - vm_compute. reflexivity.
  - vm_compute. reflexivity.
  - reflexivity.
  - intros [|[|j]] t Hj Ht; [|lia|lia]. injection Ht as <-.
    split; discriminate.
Defined.



(** X8. A request changes one record at most: whatever the request and
    its answer, a [GET] for a record that the request neither addressed
    by its path nor could create (its identifier is not the next that
    [uuid.v4] returns) is answered after the request as it was answered
    before. *)
Theorem other_records_unaffected (m : Method) (p : string) (b : value)
  (w : World) (r : Response) (w' : World) (p' id' : string) (b' : value) :
  is_json b = true ->
  serve (request m p b) w = (r, w') ->
  match_path "/todos/:id" p' = Some [("id", id')] ->
  match_path "/todos/:id" p <> Some [("id", id')] ->
  id' <> uuids w (next_uuid w) ->
  fst (serve (request GET p' b') w') = fst (serve (request GET p' b') w).
Proof.
  intros Hb E Hp' Hp Hnew. destruct (item_path _ _ Hp') as (Hc' & _).
  assert (Hkeep : stored w' = stored w ->
                  fst (serve (request GET p' b') w')
                  = fst (serve (request GET p' b') w))
    by (intros; apply get_by_stored; auto).
  assert (Hfound : found (Array.find (stored w') (has_id id'))
                   = found (Array.find (stored w) (has_id id')) ->
                   fst (serve (request GET p' b') w')
                   = fst (serve (request GET p' b') w)).
  { intros Hfd. unfold request. rewrite !serve_eq, Hc', Hp'.
    destruct (get_todo_run GET p' b' id' w') as (r1 & w1 & -> & H1 & _).
    destruct (get_todo_run GET p' b' id' w) as (r2 & w2 & -> & H2 & _).
    simpl. apply (get_outcome_found _ _ _ _ Hfd) in H2.
    eapply get_outcome_stored; eauto. }
  assert (Hfail : status r <> 200 -> status r <> 201 ->
                  fst (serve (request GET p' b') w')
                  = fst (serve (request GET p' b') w)).
  { intros H200 H201. apply Hkeep.
    destruct (failure_keeps_file _ _ _ _ _ _ _ E H200 H201) as [Hf He].
    apply stored_same; [assumption|apply He]. }
  unfold request in E.
  pose proof (serve_statuses _ _ _ _ _ _ _ E) as Hst.
  destruct m.
  - apply Hkeep. destruct (get_quiet GET p b [] w r w') as (Hu & He & _); auto.
    now apply untouched_stored.
  - apply Hkeep. destruct (get_quiet HEAD p b [] w r w') as (Hu & He & _); auto.
    now apply untouched_stored.
  - destruct (Nat.eq_dec (status r) 201) as [Hs|Hs];
      [|apply Hfail; intuition congruence].
    rewrite serve_eq in E.
    destruct (match_path "/todos" p) as [ps|];
      [|injection E as <- <-; discriminate].
    destruct (post_run POST p b ps w) as (r1 & w1 & E1 & Ho & He).
    rewrite E1 in E. injection E as <- <-.
    destruct (post_created _ _ _ _ Ho He Hs Hb) as (l & El & _ & _ & Es).
    destruct (can_read w) eqn:Hr.
    + apply Hfound. rewrite Es, El. unfold Array.find. apply found_app.
      apply has_id_other.
      * reflexivity.
      * rewrite new_todo_id. congruence.
    + apply Hkeep. rewrite Es, stored_eq, Hr. now destruct (file w).
  - destruct (Nat.eq_dec (status r) 200) as [Hs|Hs];
      [|apply Hfail; intuition congruence].
    rewrite serve_eq in E.
    destruct (match_path "/todos/:id" p) as [ps|] eqn:Ei;
      [|injection E as <- <-; discriminate].
    destruct (item_path _ _ Ei) as (_ & id & ->).
    destruct (put_run PUT p b id w) as (r1 & w1 & E1 & Ho & He).
    rewrite E1 in E. injection E as <- <-.
    destruct (put_updated _ _ _ _ _ Ho He Hs Hb)
      as (l & i & fs & El & _ & Hf & Hj & Hnth & _ & Es).
    destruct (find_from_json _ _ _ _ (stored_list _ _ El) Hf)
      as (fs' & Efs & _ & _ & Hid).
    injection Efs as <-.
    assert (Hold : id_of (Obj fs) = Str id)
      by (unfold id_of, field; simpl; now rewrite Hid).
    assert (Hne : Str id <> Str id') by congruence.
    apply Hfound. rewrite Es, El. unfold Array.find.
    apply found_replace with (x := Obj fs); auto.
    + apply has_id_other; [reflexivity|]. now rewrite Hold.
    + apply has_id_other; [now rewrite updated_Obj, strip_Obj|].
      unfold id_of. rewrite updated_other_stored; try discriminate; auto.
      fold (id_of (Obj fs)). now rewrite Hold.
  - destruct (Nat.eq_dec (status r) 200) as [Hs|Hs];
      [|apply Hfail; intuition congruence].
    rewrite serve_eq in E.
    destruct (match_path "/todos/:id" p) as [ps|] eqn:Ei;
      [|injection E as <- <-; discriminate].
    destruct (item_path _ _ Ei) as (_ & id & ->).
    destruct (delete_run DELETE p b id w) as (r1 & w1 & E1 & Ho & He).
    rewrite E1 in E. injection E as <- <-.
    destruct (delete_removed _ _ _ _ Ho He Hs)
      as (l & i & fs & El & _ & Hf & Hnth & _ & Es).
    destruct (find_from_json _ _ _ _ (stored_list _ _ El) Hf)
      as (fs' & Efs & _ & _ & Hid).
    injection Efs as <-.
    assert (Hold : id_of (Obj fs) = Str id)
      by (unfold id_of, field; simpl; now rewrite Hid).
    assert (Hne : Str id <> Str id') by congruence.
    apply Hfound. rewrite Es, El. unfold Array.find.
    apply found_remove with (x := Obj fs); auto.
    apply has_id_other; [reflexivity|]. now rewrite Hold.
  - rewrite serve_eq in E. injection E as <- <-. reflexivity.
  - rewrite serve_eq in E. injection E as <- <-. reflexivity.
Qed.

Lemma other_records_unaffected_witness :
  fst (serve (request GET "/todos/id-1" (Obj []))
         (snd (serve (request DELETE "/todos/id-0" (Obj [])) world2)))
  = fst (serve (request GET "/todos/id-1" (Obj [])) world2).
Proof.
  apply (other_records_unaffected DELETE "/todos/id-0" (Obj []) world2
           (fst (serve (request DELETE "/todos/id-0" (Obj [])) world2))
           (snd (serve (request DELETE "/todos/id-0" (Obj [])) world2))
           "/todos/id-1" "id-1" (Obj [])).
  - reflexivity.
  - apply surjective_pairing.
  - vm_compute. reflexivity.
  - vm_compute. discriminate.
  - vm_compute. discriminate.
Defined.

(** X9. Frame of a deletion: when [DELETE /todos/:id] answers 200, the
    stored list has one element less: the first that has the identifier
    of the path has left it, the elements before it are in place, and
    those behind it, a second record of that identifier among them,
    have moved up by one. *)
Theorem delete_frame (w : World) (p : string) (b : value)
  (r : Response) (w' : World) :
  serve (request DELETE p b) w = (r, w') -> status r = 200 ->
  exists id l l' i old,
    match_path "/todos/:id" p = Some [("id", id)]
    /\ stored w = Arr l /\ stored w' = Arr l'
    /\ S (List.length l') = List.length l
    /\ nth_error l i = Some old /\ field old "id" = Str id
    /\ (forall j t, j < i -> nth_error l j = Some t -> field t "id" <> Str id)
    /\ (forall j, j < i -> nth_error l' j = nth_error l j)
    /\ (forall j, i <= j -> nth_error l' j = nth_error l (S j)).
Proof.
  intros E Hs. unfold request in *. rewrite serve_eq in E.
  destruct (match_path "/todos/:id" p) as [ps|] eqn:Hp;
    [|injection E as <- <-; discriminate].
  destruct (item_path _ _ Hp) as (Hc & id & ->).
  destruct (delete_run DELETE p b id w) as (r1 & w1 & E1 & Ho & He).
  rewrite E1 in E. injection E as <- <-.
  destruct (delete_removed _ _ _ _ Ho He Hs)
    as (l & i & fs & El & _ & Hf & Hnth & _ & Es).
  destruct (find_from_some _ _ _ _ _ Hf) as (k & Hk & Hnk & Hid & Hbefore).
  simpl in Hk. subst k.
  exists id, l, (Array.remove i l), i, (Obj fs). repeat split; auto.
  - eapply length_remove; eauto.
  - destruct (has_id_true _ _ Hid) as (fs' & Efs & Hl). injection Efs as <-.
    unfold field. simpl. now rewrite Hl.
  - intros j t Hj Ht. apply has_id_false. eauto.
  - intros j Hj. now apply nth_remove_before.
  - intros j Hj. now apply nth_remove_after.
Qed.

Lemma delete_frame_witness :
  exists id l l' i old,
    match_path "/todos/:id" "/todos/id-0" = Some [("id", id)]
    /\ stored world2 = Arr l
    /\ stored (snd (serve (request DELETE "/todos/id-0" (Obj [])) world2))
       = Arr l'
    /\ S (List.length l') = List.length l
    /\ nth_error l i = Some old /\ field old "id" = Str id
    /\ (forall j t, j < i -> nth_error l j = Some t -> field t "id" <> Str id)
    /\ (forall j, j < i -> nth_error l' j = nth_error l j)
    /\ (forall j, i <= j -> nth_error l' j = nth_error l (S j)).
Proof.
  apply (delete_frame world2 "/todos/id-0" (Obj [])
           (fst (serve (request DELETE "/todos/id-0" (Obj [])) world2))).
  - apply surjective_pairing.
  - vm_compute. reflexivity.
Defined.

(** X10. What was deleted cannot be updated nor deleted again: on a
    consistent list, when [DELETE] on a path answers 200, a [PUT] or a
    second [DELETE] on the same path is answered 404 with [{message:
    "Todo not found"}] and leaves the file as the first [DELETE] wrote
    it. *)
Theorem deleted_is_gone (m : Method) (w : World) (p : string) (b b' : value)
  (r1 : Response) (w1 : World) :
  m = PUT \/ m = DELETE ->
  consistent w ->
  serve (request DELETE p b) w = (r1, w1) -> status r1 = 200 ->
  exists w2, serve (request m p b') w1 = (not_found, w2)
             /\ file w2 = file w1 /\ writes w2 = writes w1.
Proof.
  intros Hm (l & El & Hrec & Hnd) E Hs.
  unfold request in E. rewrite serve_eq in E.
  destruct (match_path "/todos/:id" p) as [ps|] eqn:Hp;
    [|injection E as <- <-; discriminate].
  destruct (item_path _ _ Hp) as (Hc & id & ->).
  destruct (delete_run DELETE p b id w) as (r & w' & E' & Ho & He).
  rewrite E' in E. injection E as <- <-.
  destruct (delete_removed _ _ _ _ Ho He Hs)
    as (l0 & i & fs & El0 & Hw & Hf & Hnth & -> & Es).
  rewrite El in El0. injection El0 as <-.
  assert (Hid : id_of (Obj fs) = Str id).
  { destruct (find_from_some _ _ _ _ _ Hf) as (k & _ & _ & Hid & _).
    apply has_id_iff in Hid; [assumption|].
    rewrite forallb_forall in Hrec. apply Hrec. eapply nth_error_In; eauto. }
  assert (Hm' : m = GET \/ m = HEAD \/ m = PUT \/ m = DELETE)
    by (destruct Hm; [right; right; left|right; right; right]; assumption).
  destruct (by_id_missing m p id b' w' Hm' Hp) as (r2 & w2 & E2 & H2).
  rewrite Es in H2. unfold Array.find in H2.
  rewrite find_from_none in H2.
  - destruct H2 as [-> Hu]. exists w2. split; [assumption|exact Hu].
  - now apply forallb_remove.
  - rewrite ids_remove. apply removed_absent; [assumption|].
    unfold ids. rewrite nth_error_map, Hnth. simpl. now f_equal.
Qed.

Lemma deleted_is_gone_witness :
  exists w2,
    serve (request DELETE "/todos/id-0" (Obj []))
      (snd (serve (request DELETE "/todos/id-0" (Obj [])) world1))
    = (not_found, w2)
    /\ file w2 = file (snd (serve (request DELETE "/todos/id-0" (Obj [])) world1))
    /\ writes w2
       = writes (snd (serve (request DELETE "/todos/id-0" (Obj [])) world1)).
Proof.
  apply (deleted_is_gone DELETE world1 "/todos/id-0" (Obj []) (Obj [])
           (fst (serve (request DELETE "/todos/id-0" (Obj [])) world1))).
  - right. reflexivity.
  - exact world1_consistent.
  - apply surjective_pairing.
  - vm_compute. reflexivity.
Defined.



(** X12. A file that cannot be loaded (it does not exist, cannot be
    read, or is not JSON) looks like an empty list: [GET /todos]
    answers 200 with [[]]; and the next [POST /todos], on a disk that
    can be written, answers 201 and replaces the file by the list of
    its one record, whatever the file held. *)
Theorem lost_file_is_replaced (w : World) (b b' : value) :
  unavailable w -> can_write w = true -> nullish b = false ->
  fst (serve (request GET "/todos" b') w) = mkResponse 200 (Json (Arr []))
  /\ exists w',
       serve (request POST "/todos" b) w
       = (mkResponse 201 (Json (Obj [("id", Str (uuids w (next_uuid w)))])), w')
       /\ file w' = Some (JSON.json_text
                            (Arr [new_todo (uuids w (next_uuid w)) b])).
Proof.
  intros Hu Hw Hb. pose proof (unavailable_stored _ Hu) as Es.
  unfold request. rewrite !serve_eq, collection_path. split.
  - destruct (get_todos_run GET "/todos" b' [] w) as (w' & -> & _).
    simpl. now rewrite Es.
  - destruct (post_run POST "/todos" b [] w) as (r & w' & E & [_ Ho] & _).
    rewrite Hb, Es, Hw in Ho. destruct Ho as (_ & -> & Hf).
    exists w'. split; assumption.
Qed.

Lemma lost_file_is_replaced_witness :
  fst (serve (request GET "/todos" (Obj []))
         (with_file (dq "[{'id':'a'},") world0))
  = mkResponse 200 (Json (Arr []))
  /\ exists w',
       serve (request POST "/todos" milk) (with_file (dq "[{'id':'a'},") world0)
       = (mkResponse 201 (Json (Obj [("id", Str "id-0")])), w')
       /\ file w' = Some (JSON.json_text (Arr [new_todo "id-0" milk])).
Proof.
  apply (lost_file_is_replaced (with_file (dq "[{'id':'a'},") world0) milk
           (Obj [])).
  - right. right. exists (dq "[{'id':'a'},"), SyntaxError.
    split; vm_compute; reflexivity.
  - reflexivity.
  - reflexivity.
Defined.

(** X13. A file that holds JSON other than an array: [GET /todos]
    answers 200 with that value as it is, and every other operation on
    todos is answered 500 by the default error handler, [find] or
    [push] being no function; none of them writes to the file. *)
Theorem not_an_array (m : Method) (p : string) (b : value)
  (w : World) (r : Response) (w' : World) :
  (forall l, stored w <> Arr l) ->
  is_todo_operation (request m p b) = true ->
  serve (request m p b) w = (r, w') ->
  file w' = file w /\ writes w' = writes w
  /\ r = match m, match_path "/todos" p with
         | (GET | HEAD), Some _ => mkResponse 200 (Json (stored w))
         | _, _ => crashed TypeError
         end.
Proof.
  intros Hna Hop E. unfold request in *. rewrite serve_eq in E.
  unfold is_todo_operation, todo_routes, matches, handles_method in Hop.
  simpl in Hop.
  destruct m; simpl in Hop; try discriminate.
  - destruct (match_path "/todos" p) as [ps|].
    + destruct (get_todos_run GET p b ps w) as (w1 & E1 & _ & Hu & _).
      rewrite E1 in E. injection E as <- <-. destruct Hu. auto.
    + destruct (match_path "/todos/:id" p) as [ps|] eqn:Ei; [|discriminate].
      destruct (item_path _ _ Ei) as (_ & id & ->).
      destruct (get_todo_run GET p b id w) as (r1 & w1 & E1 & Ho & _ & Hu & _).
      rewrite E1 in E. injection E as <- <-. unfold get_outcome in Ho.
      rewrite (find_not_array _ _ Hna) in Ho. destruct Hu. auto.
  - destruct (match_path "/todos" p) as [ps|].
    + destruct (get_todos_run HEAD p b ps w) as (w1 & E1 & _ & Hu & _).
      rewrite E1 in E. injection E as <- <-. destruct Hu. auto.
    + destruct (match_path "/todos/:id" p) as [ps|] eqn:Ei; [|discriminate].
      destruct (item_path _ _ Ei) as (_ & id & ->).
      destruct (get_todo_run HEAD p b id w) as (r1 & w1 & E1 & Ho & _ & Hu & _).
      rewrite E1 in E. injection E as <- <-. unfold get_outcome in Ho.
      rewrite (find_not_array _ _ Hna) in Ho. destruct Hu. auto.
  - destruct (match_path "/todos" p) as [ps|]; [|discriminate].
    destruct (post_run POST p b ps w) as (r1 & w1 & E1 & Ho & _).
    rewrite E1 in E. injection E as <- <-.
    destruct (push_not_array _ _ _ _ Hna Ho) as (-> & Hf & Hw). auto.
  - destruct (match_path "/todos/:id" p) as [ps|] eqn:Ei; [|discriminate].
    destruct (item_path _ _ Ei) as (_ & id & ->).
    destruct (put_run PUT p b id w) as (r1 & w1 & E1 & [_ Ho] & _).
    rewrite E1 in E. injection E as <- <-.
    rewrite (find_not_array _ _ Hna) in Ho. destruct Ho as (-> & Hf & Hw). auto.
  - destruct (match_path "/todos/:id" p) as [ps|] eqn:Ei; [|discriminate].
    destruct (item_path _ _ Ei) as (_ & id & ->).
    destruct (delete_run DELETE p b id w) as (r1 & w1 & E1 & [_ Ho] & _).
    rewrite E1 in E. injection E as <- <-.
    rewrite (find_not_array _ _ Hna) in Ho. destruct Ho as (-> & Hf & Hw). auto.
Qed.

Lemma not_an_array_witness :
  file (snd (serve (request POST "/todos" milk)
               (with_file (dq "{'todos':[]}") world0)))
  = file (with_file (dq "{'todos':[]}") world0)
  /\ writes (snd (serve (request POST "/todos" milk)
                    (with_file (dq "{'todos':[]}") world0)))
     = writes (with_file (dq "{'todos':[]}") world0)
  /\ fst (serve (request POST "/todos" milk)
            (with_file (dq "{'todos':[]}") world0))
     = crashed TypeError.
Proof.
  apply (not_an_array POST "/todos" milk (with_file (dq "{'todos':[]}") world0)).
  - intros l. vm_compute. discriminate.
  - vm_compute. reflexivity.
  - apply surjective_pairing.
Defined.





(** X16. No request of a run is answered 500, when the run starts from
    a consistent list on a disk that can be written, the bodies are
    those that [express.json()] leaves, and [uuid.v4] never repeats
    itself nor an identifier of the list. *)
Theorem no_server_error (reqs : list Request) :
  forall w,
    consistent w -> fresh_ids w -> never_repeats w -> can_write w = true ->
    Forall (fun req => is_body (body req) = true) reqs ->
    Forall (fun r => status r <> 500) (answers reqs w).
Proof.
  induction reqs as [|req reqs IH]; intros w Hc Hf Hn Hw Hb; simpl;
    [constructor|].
  inversion Hb as [|? ? Hreq Hrest]; subst.
  destruct (serve req w) as [r w'] eqn:E. simpl.
  destruct (step_invariant req w r w' E (body_json _ Hreq) Hc Hf Hn)
    as (Hc' & Hf' & Hn' & _).
  destruct req as [m p b ps0].
  constructor.
  - eapply serve_no_500; eauto.
  - apply IH; auto.
    destruct (serve_frame _ _ _ _ _ _ _ E) as ((_ & Hcw & _) & _). congruence.
Qed.

Lemma no_server_error_witness :
  Forall (fun r => status r <> 500) (answers busy_day world0).
Proof.
  apply (no_server_error busy_day world0).
  - exact world0_consistent.
  - exact world0_fresh.
  - exact world0_never_repeats.
  - reflexivity.
  - repeat constructor.
Defined.

(** X17. [PUT] is idempotent: when a [PUT] is answered 200, the same
    [PUT] sent again is answered 200 with the same text, and the file
    it writes is the file that the first one wrote. *)
Theorem put_twice (w : World) (p : string) (b : value)
  (r1 : Response) (w1 : World) :
  is_json b = true ->
  serve (request PUT p b) w = (r1, w1) -> status r1 = 200 ->
  exists answer answer' w2,
    r1 = mkResponse 200 (Json answer)
    /\ serve (request PUT p b) w1 = (mkResponse 200 (Json answer'), w2)
    /\ JSON.json_text answer' = JSON.json_text answer
    /\ file w2 = file w1 /\ stored w2 = stored w1.
Proof.
  intros Hb E Hs. unfold request in *. rewrite serve_eq in *.
  destruct (match_path "/todos/:id" p) as [ps|] eqn:Hp;
    [|injection E as <- <-; discriminate].
  destruct (item_path _ _ Hp) as (Hc & id & ->).
  destruct (put_run PUT p b id w) as (r & w' & E' & Ho & He).
  rewrite E' in E. injection E as <- <-.
  destruct (put_updated _ _ _ _ _ Ho He Hs Hb)
    as (l & i & fs & El & Hw & Hf & Hj & Hnth & Er & Es).
  destruct (put_file _ _ _ _ _ Ho Hs) as (l0 & i0 & t0 & El0 & Hf0 & Hfile).
  rewrite El in El0. injection El0 as <-.
  rewrite Hf in Hf0. injection Hf0 as <- <-.
  assert (Hn : nullish b = false).
  { destruct Ho as [_ Ho]. rewrite El in Ho. unfold Array.find in Ho.
    rewrite Hf in Ho. destruct (nullish b); [|reflexivity].
    destruct Ho as [-> _]. discriminate. }
  destruct (find_from_json _ _ _ _ (stored_list _ _ El) Hf)
    as (fs' & Efs & _ & _ & Hid).
  injection Efs as <-.
  set (T := strip (updated (Obj fs) b)) in *.
  assert (HT : id_of T = Str id).
  { unfold id_of, T. rewrite updated_other_stored; try discriminate; auto.
    unfold field. simpl. now rewrite Hid. }
  assert (HTj : strip T = T).
  { apply strip_json. apply strip_is_json. now apply wf_updated. }
  pose proof (strip_list _ (stored_list _ _ El)) as Hl.
  destruct (put_run PUT p b id w') as (r2 & w2 & E2 & [_ Ho2] & He2).
  rewrite Es in Ho2. unfold Array.find in Ho2.
  rewrite (find_from_replaced (has_id id) T (has_id_same _ _ HT) l 0 i (Obj fs))
    in Ho2 by exact Hf.
  destruct He as (Hr' & Hw' & _). rewrite Hn, Hw', Hw in Ho2.
  destruct Ho2 as (_ & -> & Hfile2). simpl Array.store in Hfile2.
  assert (Etext : JSON.json_text (Arr (Array.replace i (updated T b)
                                         (Array.replace i T l)))
                  = JSON.json_text (Arr (Array.replace i (updated (Obj fs) b) l))).
  { rewrite <- (json_text_strip (Arr (Array.replace i (updated T b) _))).
    rewrite <- (json_text_strip (Arr (Array.replace i (updated (Obj fs) b) _))).
    change (strip (Arr ?x)) with (Arr (map strip x)).
    rewrite !map_replace, Hl, HTj. unfold T at 1.
    rewrite (updated_again fs b Hj Hb). fold T.
    now rewrite replace_replace. }
  exists (updated (Obj fs) b), (updated T b), w2. repeat split; auto.
  - rewrite <- (json_text_strip (updated T b)). unfold T at 1.
    rewrite (updated_again fs b Hj Hb). apply json_text_strip.
  - rewrite Hfile2, Hfile. now f_equal.
  - apply stored_same; [|apply He2]. rewrite Hfile2, Hfile. now f_equal.
Qed.

Lemma put_twice_witness :
  exists answer answer' w2,
    fst (serve (request PUT "/todos/id-0" (Obj [("title", Str "Buy bread")]))
           world_done)
    = mkResponse 200 (Json answer)
    /\ serve (request PUT "/todos/id-0" (Obj [("title", Str "Buy bread")]))
         (snd (serve (request PUT "/todos/id-0"
                        (Obj [("title", Str "Buy bread")])) world_done))
       = (mkResponse 200 (Json answer'), w2)
    /\ JSON.json_text answer' = JSON.json_text answer
    /\ file w2
       = file (snd (serve (request PUT "/todos/id-0"
                             (Obj [("title", Str "Buy bread")])) world_done))
    /\ stored w2
       = stored (snd (serve (request PUT "/todos/id-0"
                               (Obj [("title", Str "Buy bread")])) world_done)).
Proof.
  apply (put_twice world_done "/todos/id-0" (Obj [("title", Str "Buy bread")])).
  - reflexivity.
  - apply surjective_pairing.
  - vm_compute. reflexivity.
Defined.



(* ================================================================= *)
(** * Sample runs *)

Example stringify_sample :
  JSON.stringify (Arr [Obj [("id", Str (dq "a'b")); ("title", Undefined);
                            ("completed", Bool false); ("n", Num (-12))];
                       Undefined])
  = Some (dq "[{'id':'a\'b','completed':false,'n':-12},null]").
Proof. reflexivity. Qed.

Example parse_sample :
  JSON.parse (dq " [ {'id':'a\'b\u0041', 'n': -12, 'id': []}, null , true]  ")
  = Ok (Arr [Obj [("id", Arr []); ("n", Num (-12))]; Null; Bool true]).
Proof. vm_compute. reflexivity. Qed.

Example parse_trailing_comma : JSON.parse "[1,]" = Throw SyntaxError.
Proof. vm_compute. reflexivity. Qed.

Example parse_leading_zero : JSON.parse "01" = Throw SyntaxError.
Proof. vm_compute. reflexivity. Qed.

Example parse_nothing : JSON.parse "" = Throw SyntaxError.
Proof. vm_compute. reflexivity. Qed.

(** The scenario of the specification, on a process that just started. *)
Example groceries_scenario :
  let '(r1, w1) := serve (request POST "/todos" groceries) world0 in
  let '(r2, w2) := serve (request GET "/todos/id-0" (Obj [])) w1 in
  (r1, r2, file w2) =
  (mkResponse 201 (Json (Obj [("id", Str "id-0")])),
   mkResponse 200 (Json (Obj [("id", Str "id-0");
                              ("title", Str "Buy groceries");
                              ("description", Str "I should buy groceries");
                              ("completed", Bool false)])),
   Some (dq ("[{'id':'id-0','title':'Buy groceries'," ++
             "'description':'I should buy groceries','completed':false}]"))).
Proof. vm_compute. reflexivity. Qed.

(** Paths are matched without regard to case and with an optional
    trailing slash; an update that names no title removes it. *)
Example partial_update :
  let '(r1, w1) := serve (request POST "/todos" (Obj [("title", Str "a")])) world0 in
  let '(r2, w2) := serve (request GET "/Todos/id-0/" (Obj [])) w1 in
  let '(r3, w3) := serve (request PUT "/todos/id-0" (Obj [("completed", Num 1)])) w2 in
  (r1, r2, r3, file w3) =
  (mkResponse 201 (Json (Obj [("id", Str "id-0")])),
   mkResponse 200 (Json (Obj [("id", Str "id-0"); ("title", Str "a");
                              ("completed", Bool false)])),
   mkResponse 200 (Json (Obj [("id", Str "id-0"); ("title", Undefined);
                              ("completed", Num 1);
                              ("description", Undefined)])),
   Some (dq "[{'id':'id-0','completed':1}]")).
Proof. vm_compute. reflexivity. Qed.

(** A text that is not JSON never reaches a route. *)
Example refused_by_the_middleware :
  receive POST "/todos" (Some "{title:") world0
  = (mkResponse 400 (ErrorPage SyntaxError), world0).
Proof. vm_compute. reflexivity. Qed.

(** The route of [app.get] also answers HEAD. *)
Example head_is_answered_by_get :
  fst (serve (request HEAD "/todos" (Obj [])) world0)
  = mkResponse 200 (Json (Arr [])).
Proof. vm_compute. reflexivity. Qed.

(** Files that the server does not write itself: one identifier twice,
    a [null] among the records, an object where the array should be. *)
Example twice_the_same_id :
  let w := with_file (dq "[{'id':'a','title':'x'},{'id':'a','title':'y'}]") world0 in
  let '(r1, w1) := serve (request DELETE "/todos/a" (Obj [])) w in
  let '(r2, w2) := serve (request GET "/todos/a" (Obj [])) w1 in
  (r1, r2) =
  (mkResponse 200 (Json (message "Todo deleted")),
   mkResponse 200 (Json (Obj [("id", Str "a"); ("title", Str "y")]))).
Proof. vm_compute. reflexivity. Qed.

Example null_in_the_file :
  fst (serve (request GET "/todos/a" (Obj [])) (with_file "[null]" world0))
  = mkResponse 500 (ErrorPage TypeError).
Proof. vm_compute. reflexivity. Qed.

Example file_is_no_array :
  fst (serve (request POST "/todos" groceries) (with_file "{}" world0))
  = mkResponse 500 (ErrorPage TypeError).
Proof. vm_compute. reflexivity. Qed.

(** A file that the process may write but not read. *)
Example written_but_unreadable :
  let w := mkWorld None false true (uuids world0) 0 [] in
  let '(r1, w1) := serve (request POST "/todos" groceries) w in
  let '(r2, w2) := serve (request GET "/todos/id-0" (Obj [])) w1 in
  (status r1, r2) = (201, not_found).
Proof. vm_compute. reflexivity. Qed.
